(** * Counter metric recording and the process Context of glean.js

    A shallow embedding of
    - [glean/src/core/metrics/types/counter.ts] (the counter metric:
      validation, saturating merge, the recording task), and
    - [glean/src/core/context.ts] (the process-wide Context singleton),
    followed by the properties established about them. *)

From Stdlib Require Import ZArith QArith Lia.
From stdpp Require Import gmap strings list fin_maps.

#[local] Set Warnings "-register-all".
Local Open Scope string_scope.
Local Open Scope Z_scope.

(** ** JavaScript values *)

(** A JavaScript [number].  Integer-valued numbers carry their value; the
    constructor [NFrac] stands for a finite number with a non-zero fractional
    part (its payload only identifies the number), [NNaN] for [NaN] and
    [NInfinity] for the two infinities.  [NInt 0] stands for both zeros. *)
Inductive JSNumber : Type :=
| NInt (z : Z)
| NFrac (q : Q)
| NNaN
| NInfinity (negative : bool).

(** A value of type [unknown] / [JSONValue | undefined]. *)
Inductive JSValue : Type :=
| JSUndefined
| JSNull
| JSBool (b : bool)
| JSNum (n : JSNumber)
| JSStr (s : string)
| JSArr (items : list JSValue)
| JSObj (fields : list (string * JSValue)).

(** [Number.MAX_SAFE_INTEGER], 2^53 - 1. *)
Definition MAX_SAFE_INTEGER : Z := 9007199254740991.

(** The condition of [if (v)]: every value is truthy except [undefined],
    [null], [false], [0], [NaN] and the empty string. *)
Definition truthy (v : JSValue) : bool :=
  match v with
  | JSUndefined | JSNull => false
  | JSBool b => b
  | JSNum (NInt z) => negb (z =? 0)
  | JSNum NNaN => false
  | JSNum (NFrac _) | JSNum (NInfinity _) => true
  | JSStr s => negb (String.eqb s "")
  | JSArr _ | JSObj _ => true
  end.

(** Modelled from the spec: [isInteger] of utils.ts, which the sources only
    import.  It is the type guard [v is number] for integer values
    (section 4.1: "Error if not an integer"); as a guard it hands back the
    integer it recognised. *)
Definition isInteger (v : JSValue) : option Z :=
  match v with
  | JSNum (NInt z) => Some z
  | _ => None
  end.

(** Modelled from the spec: [saturatingAdd] of utils.ts (section 4.1:
    "returns min(current+delta, MAX)"; the doc comment of [add] names the
    bound, [Number.MAX_SAFE_INTEGER]).  On integer-valued doubles the
    rounded sum and the exact sum have the same minimum with the bound: a
    sum up to the bound is exact, and a larger one rounds to at least
    2^53. *)
Definition saturatingAdd (a b : Z) : Z := Z.min (a + b) MAX_SAFE_INTEGER.

(** ** Validation outcomes *)

(** The member of [ErrorType] (error_type.ts) that the sources name, and the
    remaining members, told apart by an index. *)
Inductive ErrorType : Type :=
| InvalidValue
| OtherErrorType (index : nat).

(** The two message templates of [CounterMetric.validate]; the interpolated
    [JSON.stringify(v)] is kept as the value itself. *)
Inductive ValidationMessage : Type :=
| ExpectedIntegerGot (v : JSValue)
| ExpectedPositiveGot (v : JSValue).

(** [MetricValidationResult]: [{ type: Success }] or
    [{ type: Error, errorMessage, errorType? }]. *)
Inductive MetricValidationResult : Type :=
| Success
| Error (errorMessage : ValidationMessage) (errorType : option ErrorType).

(** [CounterMetric.validate]. *)
Definition validate (v : JSValue) : MetricValidationResult :=
  match isInteger v with
  | None => Error (ExpectedIntegerGot v) None
  | Some z =>
      if z <=? 0
      then Error (ExpectedPositiveGot v) (Some InvalidValue)
      else Success
  end.

(** ** Exceptions and completions *)

(** What a [throw] can carry here: the typed validation error of metric.ts
    (its message and the error type of the outcome it was built from, which
    is absent when [validate] gave none), the [TypeError] of a member access
    on [undefined], and a failure of the store collaborator. *)
Inductive Exception : Type :=
| MetricValidationError (message : ValidationMessage) (type : option ErrorType)
| TypeError (member : string)
| StoreFailure (reason : string).

(** [e instanceof MetricValidationError]. *)
Definition instanceofMetricValidationError (e : Exception) : bool :=
  match e with
  | MetricValidationError _ _ => true
  | _ => false
  end.

(** How a call ends: with a value, or with a thrown exception. *)
Inductive Completion (A : Type) : Type :=
| Normal (a : A)
| Throw (e : Exception).
Arguments Normal {A} a.
Arguments Throw {A} e.

(** ** The metric value wrapper *)

(** [CounterMetric extends Metric<number, number>]: the wrapper holds one
    validated number, hence an integer. *)
Record CounterMetric : Type := { _inner : Z }.

(** Modelled from the spec: [Metric.validateOrThrow] of metric.ts (section
    4.2: "an invalid value raises a typed validation error carrying the
    outcome"); a valid value is returned as the number it is. *)
Definition validateOrThrow (v : JSValue) : Completion Z :=
  match validate v with
  | Error msg ty => Throw (MetricValidationError msg ty)
  | Success => Normal (default 0 (isInteger v))
  end.

(** Modelled from the spec: the constructor of [Metric] (section 4.2:
    "Construction wrap(value) runs validate"), reached through
    [super(v)]. *)
Definition newCounterMetric (v : JSValue) : Completion CounterMetric :=
  match validateOrThrow v with
  | Normal n => Normal {| _inner := n |}
  | Throw e => Throw e
  end.

(** [CounterMetric.payload]. *)
Definition payload (m : CounterMetric) : Z := _inner m.

(** [CounterMetric.saturatingAdd]: the method updates [this._inner]; the
    wrapper after the call is returned. *)
Definition CounterMetric_saturatingAdd (this : CounterMetric) (amount : JSValue)
  : Completion CounterMetric :=
  match validateOrThrow amount with
  | Normal correctAmount =>
      Normal {| _inner := saturatingAdd (_inner this) correctAmount |}
  | Throw e => Throw e
  end.

(** ** Metrics, tasks, the dispatcher *)

(** The fields of [MetricType] that the counter uses: the identifier
    (section 3: "immutable (category, name)") and its destination pings. *)
Record InternalCounterMetricType : Type := {
  category : string;
  name : string;
  sendInPings : list string
}.

Abbreviation MetricIdentifier := (string * string)%type (only parsing).

Definition identifier (metric : InternalCounterMetricType) : MetricIdentifier :=
  (category metric, name metric).

(** The closure [async () => this.addUndispatched(amount)] that [add] hands
    to the dispatcher, by what it captures. *)
Inductive Task : Type :=
| AddTask (this : InternalCounterMetricType) (amount : option JSNumber).

(** Modelled from the spec: the [Dispatcher] of dispatcher.ts (section 3:
    "ordered sequence of pending tasks; FIFO"). *)
Record Dispatcher : Type := { queue : list Task }.

(** Modelled from the spec: [new Dispatcher()], an empty queue. *)
Definition newDispatcher : Dispatcher := {| queue := [] |}.

(** Modelled from the spec: [Dispatcher.launch] (section 4.4: "enqueue,
    return immediately"). *)
Definition launch (task : Task) (d : Dispatcher) : Dispatcher :=
  {| queue := queue d ++ [task] |}.

(** Modelled from the spec: [Dispatcher.testUninitialize] (section 4.4,
    state TestReset: "queue discarded"). *)
Definition Dispatcher_testUninitialize (d : Dispatcher) : Dispatcher :=
  {| queue := [] |}.

(** ** The Context singleton *)

(** The collaborators are objects of the heap; a Context field holds a
    reference to the one object of its class. *)
Inductive MetricsDatabaseRef : Type := theMetricsDatabase.
Inductive EventsDatabaseRef : Type := theEventsDatabase.
Inductive PingsDatabaseRef : Type := thePingsDatabase.
Inductive ErrorManagerRef : Type := theErrorManager.
Inductive DebugOptionsRef : Type := theDebugOptions.

(** A [Date], as milliseconds. *)
Definition Date : Type := Z.

(** The fields of [Context].  A field declared with [!] is [undefined]
    until assigned; [None] is [undefined] (for [_dispatcher] also
    [null]). *)
Record Context : Type := {
  _dispatcher : option Dispatcher;
  _uploadEnabled : option bool;
  _metricsDatabase : option MetricsDatabaseRef;
  _eventsDatabase : option EventsDatabaseRef;
  _pingsDatabase : option PingsDatabaseRef;
  _errorManager : option ErrorManagerRef;
  _applicationId : option string;
  _debugOptions : option DebugOptionsRef;
  _initialized : bool;
  _startTime : Date
}.

(** The private constructor, run at time [now]. *)
Definition newContext (now : Date) : Context :=
  {| _dispatcher := None; _uploadEnabled := None; _metricsDatabase := None;
     _eventsDatabase := None; _pingsDatabase := None; _errorManager := None;
     _applicationId := None; _debugOptions := None;
     _initialized := false; _startTime := now |}.

(** ** Logging *)

(** The one member of [LoggingLevel] the sources name. *)
Inductive LoggingLevel : Type := LoggingLevelError.

(** A log message: a fixed text, or the template of the transform closure,
    "Unexpected value found in storage for metric <name>: <v>.
    Overwriting.", with its two interpolated values. *)
Inductive LogMessage : Type :=
| Text (s : string)
| UnexpectedValueInStorage (metricName : string) (v : JSValue).

(** One call of [log(tag, message, level?)]. *)
Record LogEntry : Type := {
  tag : string;
  message : LogMessage;
  level : option LoggingLevel
}.

(** ** The store and the error recorder *)

Abbreviation StorageKey := (string * MetricIdentifier)%type (only parsing).

(** Modelled from the spec: the metrics database (section 6, the Store
    collaborator): one raw value per ping and metric identifier.  [fault]
    is the failure its next operation raises, if any. *)
Record MetricsDatabase : Type := {
  entries : gmap StorageKey JSValue;
  fault : option Exception
}.

#[global] Instance ErrorType_eq_dec : EqDecision ErrorType.
Proof. solve_decision. Defined.

#[global] Instance ErrorType_countable : Countable ErrorType.
Proof.
  refine (inj_countable'
            (fun t => match t with InvalidValue => 0%nat | OtherErrorType i => S i end)
            (fun n => match n with O => InvalidValue | S i => OtherErrorType i end) _).
  intros []; reflexivity.
Defined.

Abbreviation ErrorKey := (StorageKey * option ErrorType)%type (only parsing).

(** Modelled from the spec: the error manager (section 6, the Error
    Recording collaborator): a count of recorded occurrences per ping,
    metric and error kind. *)
Record ErrorManager : Type := { counts : gmap ErrorKey nat }.

(** ** The world *)

(** The state a call can read and write: the static [Context._instance],
    the two collaborator objects, the log, and the clock read by
    [new Date()]. *)
Record World : Type := {
  instanceSlot : option Context;
  database : MetricsDatabase;
  errors : ErrorManager;
  console : list LogEntry;
  clock : Date
}.

Definition setInstance (c : Context) (w : World) : World :=
  {| instanceSlot := Some c; database := database w; errors := errors w;
     console := console w; clock := clock w |}.

Definition setDatabase (db : MetricsDatabase) (w : World) : World :=
  {| instanceSlot := instanceSlot w; database := db; errors := errors w;
     console := console w; clock := clock w |}.

Definition setErrors (em : ErrorManager) (w : World) : World :=
  {| instanceSlot := instanceSlot w; database := database w; errors := em;
     console := console w; clock := clock w |}.

Definition appendLog (entry : LogEntry) (w : World) : World :=
  {| instanceSlot := instanceSlot w; database := database w; errors := errors w;
     console := console w ++ [entry]; clock := clock w |}.

(** ** Effects *)

(** A call takes a world and ends with a completion and a world; what was
    written before a [throw] stays written. *)
Definition Eff (A : Type) : Type := World -> Completion A * World.

Definition ret {A : Type} (a : A) : Eff A := fun w => (Normal a, w).

Definition throw {A : Type} (e : Exception) : Eff A := fun w => (Throw e, w).

Definition bind {A B : Type} (c : Eff A) (k : A -> Eff B) : Eff B :=
  fun w =>
    match c w with
    | (Normal a, w') => k a w'
    | (Throw e, w') => (Throw e, w')
    end.

(** [try { body } catch (e) { handler }]. *)
Definition tryCatch {A : Type} (body : Eff A) (handler : Exception -> Eff A) : Eff A :=
  fun w =>
    match body w with
    | (Normal a, w') => (Normal a, w')
    | (Throw e, w') => handler e w'
    end.

Definition liftCompletion {A : Type} (c : Completion A) : Eff A := fun w => (c, w).

Notation "'do' x <- c ;; k" := (bind c (fun x => k))
  (at level 10, x name, c at level 99, k at level 200).

(** Modelled from the spec: [log] of log.ts, one entry appended to the
    log; [level] is absent where the call passes none. *)
Definition log (tag : string) (message : LogMessage) (level : option LoggingLevel)
  : Eff unit :=
  fun w => (Normal tt, appendLog {| tag := tag; message := message; level := level |} w).

(** [new Date()]. *)
Definition newDate : Eff Date := fun w => (Normal (clock w), w).

(** [isUndefined] of utils.ts, on a field that is [undefined] until set. *)
Definition isUndefined {A : Type} (o : option A) : bool :=
  match o with
  | None => true
  | Some _ => false
  end.

(** ** Context: accessors *)

Definition Context_LOG_TAG : string := "core.Context".

(** [static get instance()]: creates the singleton on first use. *)
Definition instance : Eff Context :=
  fun w =>
    match instanceSlot w with
    | Some c => (Normal c, w)
    | None => let c := newContext (clock w) in (Normal c, setInstance c w)
    end.

(** An assignment [Context.instance.<field> = ...]. *)
Definition assignInstance (update : Context -> Context) : Eff unit :=
  do c <- instance ;;
  fun w => (Normal tt, setInstance (update c) w).

Definition with_dispatcher (d : option Dispatcher) (c : Context) : Context :=
  {| _dispatcher := d; _uploadEnabled := _uploadEnabled c;
     _metricsDatabase := _metricsDatabase c; _eventsDatabase := _eventsDatabase c;
     _pingsDatabase := _pingsDatabase c; _errorManager := _errorManager c;
     _applicationId := _applicationId c; _debugOptions := _debugOptions c;
     _initialized := _initialized c; _startTime := _startTime c |}.

Definition with_uploadEnabled (v : option bool) (c : Context) : Context :=
  {| _dispatcher := _dispatcher c; _uploadEnabled := v;
     _metricsDatabase := _metricsDatabase c; _eventsDatabase := _eventsDatabase c;
     _pingsDatabase := _pingsDatabase c; _errorManager := _errorManager c;
     _applicationId := _applicationId c; _debugOptions := _debugOptions c;
     _initialized := _initialized c; _startTime := _startTime c |}.

Definition with_metricsDatabase (v : option MetricsDatabaseRef) (c : Context) : Context :=
  {| _dispatcher := _dispatcher c; _uploadEnabled := _uploadEnabled c;
     _metricsDatabase := v; _eventsDatabase := _eventsDatabase c;
     _pingsDatabase := _pingsDatabase c; _errorManager := _errorManager c;
     _applicationId := _applicationId c; _debugOptions := _debugOptions c;
     _initialized := _initialized c; _startTime := _startTime c |}.

Definition with_eventsDatabase (v : option EventsDatabaseRef) (c : Context) : Context :=
  {| _dispatcher := _dispatcher c; _uploadEnabled := _uploadEnabled c;
     _metricsDatabase := _metricsDatabase c; _eventsDatabase := v;
     _pingsDatabase := _pingsDatabase c; _errorManager := _errorManager c;
     _applicationId := _applicationId c; _debugOptions := _debugOptions c;
     _initialized := _initialized c; _startTime := _startTime c |}.

Definition with_pingsDatabase (v : option PingsDatabaseRef) (c : Context) : Context :=
  {| _dispatcher := _dispatcher c; _uploadEnabled := _uploadEnabled c;
     _metricsDatabase := _metricsDatabase c; _eventsDatabase := _eventsDatabase c;
     _pingsDatabase := v; _errorManager := _errorManager c;
     _applicationId := _applicationId c; _debugOptions := _debugOptions c;
     _initialized := _initialized c; _startTime := _startTime c |}.

Definition with_errorManager (v : option ErrorManagerRef) (c : Context) : Context :=
  {| _dispatcher := _dispatcher c; _uploadEnabled := _uploadEnabled c;
     _metricsDatabase := _metricsDatabase c; _eventsDatabase := _eventsDatabase c;
     _pingsDatabase := _pingsDatabase c; _errorManager := v;
     _applicationId := _applicationId c; _debugOptions := _debugOptions c;
     _initialized := _initialized c; _startTime := _startTime c |}.

Definition with_applicationId (v : option string) (c : Context) : Context :=
  {| _dispatcher := _dispatcher c; _uploadEnabled := _uploadEnabled c;
     _metricsDatabase := _metricsDatabase c; _eventsDatabase := _eventsDatabase c;
     _pingsDatabase := _pingsDatabase c; _errorManager := _errorManager c;
     _applicationId := v; _debugOptions := _debugOptions c;
     _initialized := _initialized c; _startTime := _startTime c |}.

Definition with_debugOptions (v : option DebugOptionsRef) (c : Context) : Context :=
  {| _dispatcher := _dispatcher c; _uploadEnabled := _uploadEnabled c;
     _metricsDatabase := _metricsDatabase c; _eventsDatabase := _eventsDatabase c;
     _pingsDatabase := _pingsDatabase c; _errorManager := _errorManager c;
     _applicationId := _applicationId c; _debugOptions := v;
     _initialized := _initialized c; _startTime := _startTime c |}.

Definition with_initialized (v : bool) (c : Context) : Context :=
  {| _dispatcher := _dispatcher c; _uploadEnabled := _uploadEnabled c;
     _metricsDatabase := _metricsDatabase c; _eventsDatabase := _eventsDatabase c;
     _pingsDatabase := _pingsDatabase c; _errorManager := _errorManager c;
     _applicationId := _applicationId c; _debugOptions := _debugOptions c;
     _initialized := v; _startTime := _startTime c |}.

Definition with_startTime (v : Date) (c : Context) : Context :=
  {| _dispatcher := _dispatcher c; _uploadEnabled := _uploadEnabled c;
     _metricsDatabase := _metricsDatabase c; _eventsDatabase := _eventsDatabase c;
     _pingsDatabase := _pingsDatabase c; _errorManager := _errorManager c;
     _applicationId := _applicationId c; _debugOptions := _debugOptions c;
     _initialized := _initialized c; _startTime := v |}.

(** The text every guarded getter logs, for the property it guards. *)
Definition accessedBeforeSet (property : string) : LogMessage :=
  Text ("Attempted to access Context." ++ property
        ++ " before it was set. This may cause unexpected behaviour.").

(** The body shared by the seven guarded getters: log at error level when
    the field is [undefined], then return the field. *)
Definition guardedGet {A : Type} (field : Context -> option A) (property : string)
  : Eff (option A) :=
  do c <- instance ;;
  do _ <- (if isUndefined (field c)
      then log Context_LOG_TAG (accessedBeforeSet property) (Some LoggingLevelError)
      else ret tt) ;;
  do c' <- instance ;;
  ret (field c').

(** [static get dispatcher()]: creates a dispatcher if the field holds
    none, and returns the field. *)
Definition dispatcher : Eff (option Dispatcher) :=
  do c <- instance ;;
  do _ <- (if isUndefined (_dispatcher c)
      then assignInstance (with_dispatcher (Some newDispatcher))
      else ret tt) ;;
  do c' <- instance ;;
  ret (_dispatcher c').

Definition uploadEnabled : Eff (option bool) :=
  guardedGet _uploadEnabled "uploadEnabled".
Definition set_uploadEnabled (upload : bool) : Eff unit :=
  assignInstance (with_uploadEnabled (Some upload)).

Definition metricsDatabase : Eff (option MetricsDatabaseRef) :=
  guardedGet _metricsDatabase "metricsDatabase".
Definition set_metricsDatabase (db : MetricsDatabaseRef) : Eff unit :=
  assignInstance (with_metricsDatabase (Some db)).

Definition eventsDatabase : Eff (option EventsDatabaseRef) :=
  guardedGet _eventsDatabase "eventsDatabase".
Definition set_eventsDatabase (db : EventsDatabaseRef) : Eff unit :=
  assignInstance (with_eventsDatabase (Some db)).

Definition pingsDatabase : Eff (option PingsDatabaseRef) :=
  guardedGet _pingsDatabase "pingsDatabase".
Definition set_pingsDatabase (db : PingsDatabaseRef) : Eff unit :=
  assignInstance (with_pingsDatabase (Some db)).

Definition errorManager : Eff (option ErrorManagerRef) :=
  guardedGet _errorManager "errorManager".
Definition set_errorManager (db : ErrorManagerRef) : Eff unit :=
  assignInstance (with_errorManager (Some db)).

Definition applicationId : Eff (option string) :=
  guardedGet _applicationId "applicationId".
Definition set_applicationId (id : string) : Eff unit :=
  assignInstance (with_applicationId (Some id)).

Definition initialized : Eff bool :=
  do c <- instance ;; ret (_initialized c).
Definition set_initialized (init : bool) : Eff unit :=
  assignInstance (with_initialized init).

Definition debugOptions : Eff (option DebugOptionsRef) :=
  guardedGet _debugOptions "debugOptions".
Definition set_debugOptions (options : DebugOptionsRef) : Eff unit :=
  assignInstance (with_debugOptions (Some options)).

Definition startTime : Eff Date :=
  do c <- instance ;; ret (_startTime c).

(** A method call on the dispatcher object the Context refers to: the
    object is updated where it is. *)
Definition onDispatcher (method : Dispatcher -> Dispatcher) : Eff unit :=
  assignInstance (fun c => with_dispatcher (method <$> _dispatcher c) c).

(** The assignment [Context._instance._startTime = ...], which reads the
    static slot directly. *)
Definition assignStartTime (now : Date) : Eff unit :=
  fun w =>
    match instanceSlot w with
    | Some c => (Normal tt, setInstance (with_startTime now c) w)
    | None => (Throw (TypeError "_startTime"), w)
    end.

(** [static async testUninitialize()]. *)
Definition testUninitialize : Eff unit :=
  do c <- instance ;;
  do _ <- (if negb (isUndefined (_dispatcher c))
      then onDispatcher Dispatcher_testUninitialize
      else ret tt) ;;
  do _ <- assignInstance (with_dispatcher None) ;;
  do _ <- set_initialized false ;;
  do now <- newDate ;;
  assignStartTime now.

(** ** The store and error recorder operations *)

(** What the store passes to a transform function for a key: the raw value,
    [undefined] when there is none. *)
Definition rawValue (db : MetricsDatabase) (key : StorageKey) : JSValue :=
  default JSUndefined (entries db !! key).

Definition writeValue (key : StorageKey) (v : JSValue) (db : MetricsDatabase)
  : MetricsDatabase :=
  {| entries := <[key := v]> (entries db); fault := fault db |}.

Definition readRaw (key : StorageKey) : Eff JSValue :=
  fun w => (Normal (rawValue (database w) key), w).

Definition writeRaw (key : StorageKey) (v : JSValue) : Eff unit :=
  fun w => (Normal tt, setDatabase (writeValue key v (database w)) w).

(** The read-modify-write of one key after another: the transform function
    sees the raw value of the key and its payload is written back. *)
Fixpoint transformPings (id : MetricIdentifier)
    (transformFn : JSValue -> Eff CounterMetric) (pings : list string) : Eff unit :=
  match pings with
  | [] => ret tt
  | ping :: rest =>
      do v <- readRaw (ping, id) ;;
      do metric <- transformFn v ;;
      do _ <- writeRaw (ping, id) (JSNum (NInt (payload metric))) ;;
      transformPings id transformFn rest
  end.

(** Modelled from the spec: [MetricsDatabase.transform] (section 6:
    "transform(identifier, f): atomic per-key read-modify-write"), over the
    destination pings of the metric.  A store whose [fault] is set fails
    with it. *)
Definition MetricsDatabase_transform (metric : InternalCounterMetricType)
    (transformFn : JSValue -> Eff CounterMetric) : Eff unit :=
  fun w =>
    match fault (database w) with
    | Some e => (Throw e, w)
    | None => transformPings (identifier metric) transformFn (sendInPings metric) w
    end.

(** Modelled from the spec: [MetricsDatabase.getMetric] (section 6: "point
    read"). *)
Definition getMetric (ping : string) (metric : InternalCounterMetricType) (w : World)
  : option JSValue :=
  entries (database w) !! (ping, identifier metric).

(** The number of occurrences recorded under a key. *)
Definition numRecorded (em : ErrorManager) (key : ErrorKey) : nat :=
  default 0%nat (counts em !! key).

Definition recordOnce (key : ErrorKey) (em : ErrorManager) : ErrorManager :=
  {| counts := <[key := S (numRecorded em key)]> (counts em) |}.

(** Modelled from the spec: [ErrorManager.record] (section 4.3: "record one
    occurrence of this kind against this metric's destinations"). *)
Definition ErrorManager_record (metric : InternalCounterMetricType)
    (kind : option ErrorType) : Eff unit :=
  fun w =>
    (Normal tt,
     setErrors
       (foldl (fun em ping => recordOnce (ping, identifier metric, kind) em)
              (errors w) (sendInPings metric))
       w).

(** Modelled from the spec: [testGetNumRecordedErrors] (section 6). *)
Definition testGetNumRecordedErrors (metric : InternalCounterMetricType)
    (kind : option ErrorType) (ping : string) (w : World) : nat :=
  numRecorded (errors w) (ping, identifier metric, kind).

(** Modelled from the spec: [MetricValidationError.recordError] of
    metric.ts (section 4.3: "forward to the error recorder"), which reaches
    the recorder through the Context. *)
Definition recordError (e : Exception) (metric : InternalCounterMetricType) : Eff unit :=
  match e with
  | MetricValidationError _ kind =>
      do em <- errorManager ;;
      match em with
      | Some _ => ErrorManager_record metric kind
      | None => throw (TypeError "record")
      end
  | _ => ret tt
  end.

(** ** The counter metric type *)

Definition LOG_TAG : string := "core.metrics.CounterMetricType".

(** Modelled from the spec: [MetricType.shouldRecord] (section 2: "a global
    enablement flag"), the truthiness of the flag it is given. *)
Definition shouldRecord (uploadEnabled : option bool) : bool :=
  match uploadEnabled with
  | Some true => true
  | _ => false
  end.

(** The closure [transformFn] built by [addUndispatched] for [amount]. *)
Definition transformFn (this : InternalCounterMetricType) (amount : JSNumber)
    (v : JSValue) : Eff CounterMetric :=
  do metric <- liftCompletion (newCounterMetric (JSNum amount)) ;;
  if truthy v
  then
    tryCatch
      (liftCompletion (CounterMetric_saturatingAdd metric v))
      (fun _ =>
         do _ <- log LOG_TAG (UnexpectedValueInStorage (name this) v) None ;;
         ret metric)
  else ret metric.

(** [InternalCounterMetricType.addUndispatched]. *)
Definition addUndispatched (this : InternalCounterMetricType) (amount : option JSNumber)
  : Eff unit :=
  do enabled <- uploadEnabled ;;
  if negb (shouldRecord enabled)
  then ret tt
  else
    let amount := match amount with
                  | None => NInt 1
                  | Some a => a
                  end in
    tryCatch
      (do db <- metricsDatabase ;;
       match db with
       | Some _ => MetricsDatabase_transform this (transformFn this amount)
       | None => throw (TypeError "transform")
       end)
      (fun e =>
         if instanceofMetricValidationError e
         then recordError e this
         else ret tt).

(** The call [Context.dispatcher.launch(task)]. *)
Definition Context_dispatcher_launch (task : Task) : Eff unit :=
  do d <- dispatcher ;;
  match d with
  | Some _ => onDispatcher (launch task)
  | None => throw (TypeError "launch")
  end.

(** [InternalCounterMetricType.add]. *)
Definition add (this : InternalCounterMetricType) (amount : option JSNumber) : Eff unit :=
  Context_dispatcher_launch (AddTask this amount).

(** ** The dispatcher at work *)

(** Running a task is calling the closure. *)
Definition runTask (task : Task) : Eff unit :=
  match task with
  | AddTask this amount => addUndispatched this amount
  end.

(** The tasks waiting in the queue of the Context's dispatcher. *)
Definition pending (w : World) : list Task :=
  match instanceSlot w with
  | Some c =>
      match _dispatcher c with
      | Some d => queue d
      | None => []
      end
  | None => []
  end.

(** Modelled from the spec: one turn of the single worker (section 4.4:
    "draining tasks strictly in arrival order, one at a time"): the oldest
    task leaves the queue and runs to its end; a failure of the task does
    not stop the queue (section 7).  The task that ran is returned. *)
Definition processNext : Eff (option Task) :=
  fun w =>
    match instanceSlot w with
    | Some c =>
        match _dispatcher c with
        | Some d =>
            match queue d with
            | task :: rest =>
                let w1 := setInstance (with_dispatcher (Some {| queue := rest |}) c) w in
                (Normal (Some task), snd (runTask task w1))
            | [] => (Normal None, w)
            end
        | None => (Normal None, w)
        end
    | None => (Normal None, w)
    end.

(** ** Vocabulary of the statements *)

(** The warning of the transform closure about a stored value. *)
Definition overwriteWarning (this : InternalCounterMetricType) (v : JSValue) : LogEntry :=
  {| tag := LOG_TAG; message := UnexpectedValueInStorage (name this) v; level := None |}.

(** The error-level entry of a guarded getter. *)
Definition misuseEntry (property : string) : LogEntry :=
  {| tag := Context_LOG_TAG; message := accessedBeforeSet property;
     level := Some LoggingLevelError |}.

(** The Context the next access finds: the singleton, or the one it would
    create. *)
Definition currentInstance (w : World) : Context :=
  match instanceSlot w with
  | Some c => c
  | None => newContext (clock w)
  end.

(** The Context is initialised for recording: the enablement flag is on and
    the store and the error recorder are set. *)
Definition readyToRecord (w : World) : Prop :=
  exists c, instanceSlot w = Some c /\
            _uploadEnabled c = Some true /\
            _metricsDatabase c = Some theMetricsDatabase /\
            _errorManager c = Some theErrorManager.

(** What a valid delta [a] and the raw value [v] of a key merge to. *)
Definition mergedValue (a : Z) (v : JSValue) : Z :=
  if truthy v
  then match validate v with
       | Success => saturatingAdd a (default 0 (isInteger v))
       | Error _ _ => a
       end
  else a.

(** The warnings the closure logs for the raw value [v]. *)
Definition warningsFor (this : InternalCounterMetricType) (v : JSValue) : list LogEntry :=
  if truthy v
  then match validate v with
       | Success => []
       | Error _ _ => [overwriteWarning this v]
       end
  else [].

Definition appendLogs (entries : list LogEntry) (w : World) : World :=
  {| instanceSlot := instanceSlot w; database := database w; errors := errors w;
     console := console w ++ entries; clock := clock w |}.

(** The effect on the world of recording the valid delta [a] into one
    ping. *)
Definition recordInto (this : InternalCounterMetricType) (a : Z) (w : World)
    (ping : string) : World :=
  let key := (ping, identifier this) in
  let v := rawValue (database w) key in
  setDatabase (writeValue key (JSNum (NInt (mergedValue a v))) (database w))
              (appendLogs (warningsFor this v) w).

(** The number [addUndispatched] records: 1 when none is given. *)
Definition amountOrOne (amount : option JSNumber) : JSNumber :=
  match amount with
  | None => NInt 1
  | Some a => a
  end.

(** The world a call leaves behind. *)
Definition after {A : Type} (call : Eff A) (w : World) : World := snd (call w).

(** A metric, an initialised Context and a world around it, for examples. *)
Definition clicks : InternalCounterMetricType :=
  {| category := "ui"; name := "clicks"; sendInPings := ["metrics"] |}.

Definition initialisedContext : Context :=
  {| _dispatcher := None; _uploadEnabled := Some true;
     _metricsDatabase := Some theMetricsDatabase;
     _eventsDatabase := Some theEventsDatabase;
     _pingsDatabase := Some thePingsDatabase;
     _errorManager := Some theErrorManager;
     _applicationId := Some "org.example.app";
     _debugOptions := Some theDebugOptions;
     _initialized := true; _startTime := 1000 |}.

Definition emptyStore : MetricsDatabase := {| entries := ∅; fault := None |}.

Definition initialisedWorld : World :=
  {| instanceSlot := Some initialisedContext; database := emptyStore;
     errors := {| counts := ∅ |}; console := []; clock := 2000 |}.

(** The error kind under which an invalid amount is recorded: the error
    type of its validation outcome, which only an integer has. *)
Definition recordedKind (n : JSNumber) : option ErrorType :=
  match n with
  | NInt _ => Some InvalidValue
  | _ => None
  end.

(** The example world with the raw value [v] stored for the example
    metric. *)
Definition worldHolding (v : JSValue) : World :=
  setDatabase
    {| entries := {[ ("metrics", identifier clicks) := v ]}; fault := None |}
    initialisedWorld.

(** The example world with the enablement flag switched off, and with a
    store that fails. *)
Definition disabledWorld : World :=
  setInstance (with_uploadEnabled (Some false) initialisedContext) initialisedWorld.

Definition failingWorld : World :=
  setDatabase {| entries := ∅; fault := Some (StoreFailure "quota exceeded") |}
              initialisedWorld.

(** The fields of the Context, each read through its static getter. *)
Inductive ContextField : Type :=
| Field_dispatcher
| Field_uploadEnabled
| Field_metricsDatabase
| Field_eventsDatabase
| Field_pingsDatabase
| Field_errorManager
| Field_applicationId
| Field_debugOptions
| Field_initialized
| Field_startTime.

Definition propertyName (field : ContextField) : string :=
  match field with
  | Field_dispatcher => "dispatcher"
  | Field_uploadEnabled => "uploadEnabled"
  | Field_metricsDatabase => "metricsDatabase"
  | Field_eventsDatabase => "eventsDatabase"
  | Field_pingsDatabase => "pingsDatabase"
  | Field_errorManager => "errorManager"
  | Field_applicationId => "applicationId"
  | Field_debugOptions => "debugOptions"
  | Field_initialized => "initialized"
  | Field_startTime => "startTime"
  end.

(** Whether a field of the Context has been set.  The constructor sets
    [_initialized] and [_startTime]. *)
Definition isSet (field : ContextField) (c : Context) : bool :=
  match field with
  | Field_dispatcher => negb (isUndefined (_dispatcher c))
  | Field_uploadEnabled => negb (isUndefined (_uploadEnabled c))
  | Field_metricsDatabase => negb (isUndefined (_metricsDatabase c))
  | Field_eventsDatabase => negb (isUndefined (_eventsDatabase c))
  | Field_pingsDatabase => negb (isUndefined (_pingsDatabase c))
  | Field_errorManager => negb (isUndefined (_errorManager c))
  | Field_applicationId => negb (isUndefined (_applicationId c))
  | Field_debugOptions => negb (isUndefined (_debugOptions c))
  | Field_initialized => true
  | Field_startTime => true
  end.

(** Reading a field through its getter; the result tells whether the value
    read is absent ([undefined]). *)
Definition readsAbsent (field : ContextField) : Eff bool :=
  match field with
  | Field_dispatcher => do v <- dispatcher ;; ret (isUndefined v)
  | Field_uploadEnabled => do v <- uploadEnabled ;; ret (isUndefined v)
  | Field_metricsDatabase => do v <- metricsDatabase ;; ret (isUndefined v)
  | Field_eventsDatabase => do v <- eventsDatabase ;; ret (isUndefined v)
  | Field_pingsDatabase => do v <- pingsDatabase ;; ret (isUndefined v)
  | Field_errorManager => do v <- errorManager ;; ret (isUndefined v)
  | Field_applicationId => do v <- applicationId ;; ret (isUndefined v)
  | Field_debugOptions => do v <- debugOptions ;; ret (isUndefined v)
  | Field_initialized => do _ <- initialized ;; ret false
  | Field_startTime => do _ <- startTime ;; ret false
  end.

(** A world in which nothing has touched the Context yet. *)
Definition freshWorld : World :=
  {| instanceSlot := None; database := emptyStore; errors := {| counts := ∅ |};
     console := []; clock := 2000 |}.

(** The world with the dispatcher taken out of the Context. *)
Definition eraseQueue (w : World) : World :=
  setInstance (with_dispatcher None (currentInstance w)) w.

(** A call that neither reads nor writes the dispatcher: it leaves the
    queue as it is, and without the dispatcher it ends the same way in the
    same world. *)
Definition queueBlind {A : Type} (call : Eff A) : Prop :=
  forall w : World,
    pending (snd (call w)) = pending w /\
    call (eraseQueue w) = (fst (call w), eraseQueue (snd (call w))).

(** What can happen to the queue: some caller launches a task, or the
    worker takes its next turn. *)
Inductive Event : Type :=
| Launch (task : Task)
| Turn.

(** Modelled from the spec: a run of the dispatcher under a schedule of
    launches and worker turns (section 5: "Single logical worker drains the
    queue"), with the tasks it executed, in the order it executed them. *)
Fixpoint runEvents (events : list Event) (w : World) : list Task * World :=
  match events with
  | [] => ([], w)
  | Launch task :: rest => runEvents rest (after (Context_dispatcher_launch task) w)
  | Turn :: rest =>
      let (executed, w') := runEvents rest (after processNext w) in
      match fst (processNext w) with
      | Normal (Some task) => (task :: executed, w')
      | _ => (executed, w')
      end
  end.

(** The tasks a schedule launches, in launch order. *)
Fixpoint launchedBy (events : list Event) : list Task :=
  match events with
  | [] => []
  | Launch task :: rest => task :: launchedBy rest
  | Turn :: rest => launchedBy rest
  end.

(** Running tasks one after the other, each to its end. *)
Definition runAll (tasks : list Task) (w : World) : World :=
  foldl (fun w task => after (runTask task) w) w tasks.

(** A schedule for examples: two launches, a turn, a third launch, two more
    turns. *)
Definition sampleSchedule : list Event :=
  [Launch (AddTask clicks (Some (NInt 2)));
   Launch (AddTask clicks (Some (NInt 0)));
   Turn;
   Launch (AddTask clicks None);
   Turn;
   Turn].

(** Recording a list of integer amounts, one call after the other. *)
Definition recordEach (this : InternalCounterMetricType) (amounts : list Z) (w : World)
  : World :=
  foldl (fun w a => after (addUndispatched this (Some (NInt a))) w) w amounts.

(** The sum of a list of integers. *)
Definition total (amounts : list Z) : Z := foldr Z.add 0 amounts.

(** What a destination ping of a metric without stored value holds after the
    given positive amounts have been recorded, in any order. *)
Definition storedAfter (amounts : list Z) : option JSValue :=
  match amounts with
  | [] => None
  | [a] => Some (JSNum (NInt a))
  | _ => Some (JSNum (NInt (Z.min (total amounts) MAX_SAFE_INTEGER)))
  end.

(** The keys of the store that belong to a metric: its identifier, under
    one of its destination pings. *)
Definition ownKey (this : InternalCounterMetricType) (key : string * (string * string))
  : Prop :=
  fst key ∈ sendInPings this /\ snd key = identifier this.

(** What a recording of a metric may change between two worlds: nothing of
    the Context, the clock or the health of the store; in the store, only
    own keys, and each of those only to a positive integer; among the
    error counts, only those of own keys, and those only upwards. *)
Definition recordingStep (this : InternalCounterMetricType) (w w' : World) : Prop :=
  currentInstance w' = currentInstance w /\
  clock w' = clock w /\
  fault (database w') = fault (database w) /\
  (forall key : string * (string * string),
      entries (database w') !! key = entries (database w) !! key \/
      (ownKey this key /\
       exists z, 0 < z /\ entries (database w') !! key = Some (JSNum (NInt z)))) /\
  (forall (key : string * (string * string)) (kind : option ErrorType),
      numRecorded (errors w') (key, kind) = numRecorded (errors w) (key, kind) \/
      (ownKey this key /\
       (numRecorded (errors w) (key, kind) <= numRecorded (errors w') (key, kind))%nat)).

(** A call all of whose effects are such changes. *)
Definition stepsWithin {A : Type} (this : InternalCounterMetricType) (call : Eff A) : Prop :=
  forall w : World, recordingStep this w (snd (call w)).

(** * Properties *)

(** ** Validation *)

Lemma validate_integer (z : Z) :
  validate (JSNum (NInt z)) =
  if z <=? 0
  then Error (ExpectedPositiveGot (JSNum (NInt z))) (Some InvalidValue)
  else Success.
Proof. reflexivity. Qed.

Lemma validate_not_integer (v : JSValue) :
  (forall z, v <> JSNum (NInt z)) -> validate v = Error (ExpectedIntegerGot v) None.
Proof.
  intros Hv. unfold validate.
  destruct v as [| | b | [z | q | | s] | s | l | l]; simpl; try reflexivity.
  exfalso. apply (Hv z). reflexivity.
Qed.

(** What [validate] accepts is exactly the positive integers. *)
Lemma validate_Success_inv (v : JSValue) :
  validate v = Success -> exists z, v = JSNum (NInt z) /\ 0 < z.
Proof.
  unfold validate.
  destruct v as [| | b | [z | q | | s] | s | l | l]; simpl; try discriminate.
  destruct (Z.leb_spec z 0); [discriminate | eauto].
Qed.

(** C4.  [validate] returns an Error outcome (without an error type) for
    every candidate that is not an integer, an Error outcome tagged
    [InvalidValue] for every integer candidate at most 0, and Success for
    every integer candidate above 0. *)
Theorem validate_outcome :
  (forall v : JSValue,
      (forall z, v <> JSNum (NInt z)) -> exists msg, validate v = Error msg None) /\
  (forall z : Z,
      z <= 0 -> exists msg, validate (JSNum (NInt z)) = Error msg (Some InvalidValue)) /\
  (forall z : Z, 0 < z -> validate (JSNum (NInt z)) = Success).
Proof.
  split; [| split].
  - intros v Hv. eexists. apply validate_not_integer, Hv.
  - intros z Hz. rewrite validate_integer.
    destruct (Z.leb_spec z 0); [eauto | lia].
  - intros z Hz. rewrite validate_integer.
    destruct (Z.leb_spec z 0); [lia | reflexivity].
Qed.

Lemma validate_outcome_witness :
  (exists msg, validate (JSStr "7") = Error msg None) /\
  (exists msg, validate (JSNum (NInt (-2))) = Error msg (Some InvalidValue)) /\
  validate (JSNum (NInt 7)) = Success.
Proof.
  destruct validate_outcome as (Hnot & Hle & Hgt).
  split; [| split].
  - apply Hnot. intros z; discriminate.
  - apply Hle. lia.
  - apply Hgt. lia.
Defined.

(** ** The transform closure *)

Lemma newCounterMetric_valid (a : Z) :
  0 < a -> newCounterMetric (JSNum (NInt a)) = Normal {| _inner := a |}.
Proof.
  intros Ha. unfold newCounterMetric, validateOrThrow.
  rewrite validate_integer. destruct (Z.leb_spec a 0); [lia | reflexivity].
Qed.

Lemma newCounterMetric_invalid (v : JSValue) msg ty :
  validate v = Error msg ty ->
  newCounterMetric v = Throw (MetricValidationError msg ty).
Proof. intros Hv. unfold newCounterMetric, validateOrThrow. rewrite Hv. reflexivity. Qed.

(** The closure of a valid amount never throws: it merges a valid stored
    value, warns about and drops a truthy invalid one, and does not look
    further at a falsy one. *)
Lemma transformFn_valid (this : InternalCounterMetricType) (a : Z) (v : JSValue) (w : World) :
  0 < a ->
  transformFn this (NInt a) v w =
  if truthy v
  then match validate v with
       | Success =>
           (Normal {| _inner := saturatingAdd a (default 0 (isInteger v)) |}, w)
       | Error _ _ => (Normal {| _inner := a |}, appendLog (overwriteWarning this v) w)
       end
  else (Normal {| _inner := a |}, w).
Proof.
  intros Ha. unfold transformFn, bind, liftCompletion, tryCatch.
  rewrite (newCounterMetric_valid a Ha).
  destruct (truthy v); [| reflexivity].
  unfold CounterMetric_saturatingAdd, validateOrThrow.
  destruct (validate v); reflexivity.
Qed.

(** The closure of an invalid amount throws the validation error of the
    amount, whatever is stored, and touches nothing. *)
Lemma transformFn_invalid (this : InternalCounterMetricType) (n : JSNumber) (v : JSValue)
    (w : World) msg ty :
  validate (JSNum n) = Error msg ty ->
  transformFn this n v w = (Throw (MetricValidationError msg ty), w).
Proof.
  intros Hn. unfold transformFn, bind, liftCompletion.
  rewrite (newCounterMetric_invalid _ _ _ Hn). reflexivity.
Qed.

(** C10.  A falsy stored value (the number 0 among them) is treated by the
    transform closure as no stored value: the closure does what it does for
    [undefined], and for a valid delta that is returning a wrapper of the
    delta alone, with nothing merged and nothing logged. *)
Theorem transformFn_falsy_as_absent (this : InternalCounterMetricType) (amount : JSNumber)
    (v : JSValue) (w : World) :
  truthy v = false ->
  transformFn this amount v w = transformFn this amount JSUndefined w /\
  (forall a : Z, amount = NInt a -> 0 < a ->
     transformFn this amount v w = (Normal {| _inner := a |}, w)).
Proof.
  intros Hv. split.
  - unfold transformFn. rewrite Hv. reflexivity.
  - intros a -> Ha. rewrite (transformFn_valid this a v w Ha), Hv. reflexivity.
Qed.

Lemma transformFn_falsy_as_absent_witness :
  transformFn clicks (NInt 5) (JSNum (NInt 0)) initialisedWorld =
  transformFn clicks (NInt 5) JSUndefined initialisedWorld /\
  transformFn clicks (NInt 5) (JSNum (NInt 0)) initialisedWorld =
  (Normal {| _inner := 5 |}, initialisedWorld).
Proof.
  destruct (transformFn_falsy_as_absent clicks (NInt 5) (JSNum (NInt 0))
              initialisedWorld eq_refl) as [Hsame Hdelta].
  split; [exact Hsame | apply (Hdelta 5 eq_refl); lia].
Defined.

(** ** Context accessors *)

Lemma instance_value (w : World) :
  instance w = (Normal (currentInstance w), setInstance (currentInstance w) w).
Proof.
  unfold instance, currentInstance.
  destruct w as [[c |] db em out now]; reflexivity.
Qed.

Lemma instance_present (c : Context) (w : World) :
  instanceSlot w = Some c -> instance w = (Normal c, w).
Proof. intros Hc. unfold instance. rewrite Hc. reflexivity. Qed.

Lemma setInstance_present (c : Context) (w : World) :
  instanceSlot w = Some c -> setInstance c w = w.
Proof. destruct w; simpl; intros ->; reflexivity. Qed.

(** A guarded getter on a field that is set returns it and logs nothing. *)
Lemma guardedGet_set {A : Type} (field : Context -> option A) (property : string)
    (c : Context) (x : A) (w : World) :
  instanceSlot w = Some c -> field c = Some x ->
  guardedGet field property w = (Normal (Some x), w).
Proof.
  intros Hc Hx. unfold guardedGet, bind.
  rewrite (instance_present c w Hc), Hx. simpl.
  rewrite (instance_present c w Hc). unfold ret. rewrite Hx. reflexivity.
Qed.

(** A guarded getter on a field that is not set logs its one entry and
    returns [undefined]. *)
Lemma guardedGet_unset {A : Type} (field : Context -> option A) (property : string)
    (w : World) :
  field (currentInstance w) = None ->
  guardedGet field property w =
  (Normal None, appendLog (misuseEntry property) (setInstance (currentInstance w) w)).
Proof.
  intros Hx. unfold guardedGet, bind.
  rewrite instance_value, Hx. simpl. unfold ret. rewrite Hx. reflexivity.
Qed.

(** ** The store transform *)

Lemma appendLogs_nil (w : World) : appendLogs [] w = w.
Proof. destruct w. unfold appendLogs. simpl. rewrite app_nil_r. reflexivity. Qed.

Lemma transformFn_valid_merged (this : InternalCounterMetricType) (a : Z) (v : JSValue)
    (w : World) :
  0 < a ->
  transformFn this (NInt a) v w =
  (Normal {| _inner := mergedValue a v |}, appendLogs (warningsFor this v) w).
Proof.
  intros Ha. rewrite (transformFn_valid this a v w Ha).
  unfold mergedValue, warningsFor.
  destruct (truthy v); [destruct (validate v) |];
    rewrite ?appendLogs_nil; reflexivity.
Qed.

(** With a valid delta the transform writes every ping in turn and cannot
    fail. *)
Lemma transformPings_valid (this : InternalCounterMetricType) (a : Z) (pings : list string) :
  0 < a ->
  forall w : World,
    transformPings (identifier this) (transformFn this (NInt a)) pings w =
    (Normal tt, foldl (recordInto this a) w pings).
Proof.
  intros Ha. induction pings as [| ping rest IH]; intros w; [reflexivity |].
  simpl. unfold bind at 1 2 3, readRaw, writeRaw.
  rewrite (transformFn_valid_merged this a _ w Ha). simpl.
  rewrite IH. reflexivity.
Qed.

(** With an invalid delta the transform fails at the first ping, before any
    write; with no ping at all there is nothing to fail. *)
Lemma transformPings_invalid (this : InternalCounterMetricType) (n : JSNumber)
    (pings : list string) (w : World) msg ty :
  validate (JSNum n) = Error msg ty ->
  transformPings (identifier this) (transformFn this n) pings w =
  match pings with
  | [] => (Normal tt, w)
  | _ :: _ => (Throw (MetricValidationError msg ty), w)
  end.
Proof.
  intros Hn. destruct pings as [| ping rest]; [reflexivity |].
  simpl. unfold bind at 1 2, readRaw.
  rewrite (transformFn_invalid this n _ w msg ty Hn). reflexivity.
Qed.

(** ** The recording task *)

(** On an initialised Context the task is the store transform inside its
    [try], with the [catch] of the source as handler. *)
Lemma addUndispatched_ready (this : InternalCounterMetricType) (amount : option JSNumber)
    (w : World) :
  readyToRecord w ->
  addUndispatched this amount w =
  tryCatch
    (MetricsDatabase_transform this (transformFn this (amountOrOne amount)))
    (fun e => if instanceofMetricValidationError e then recordError e this else ret tt)
    w.
Proof.
  intros (c & Hc & Hup & Hdb & _).
  unfold addUndispatched, bind at 1, uploadEnabled.
  rewrite (guardedGet_set _ _ c true w Hc Hup). simpl.
  unfold tryCatch, bind, metricsDatabase.
  rewrite (guardedGet_set _ _ c theMetricsDatabase w Hc Hdb).
  destruct amount; reflexivity.
Qed.

Lemma recordError_ready (this : InternalCounterMetricType) msg ty (w : World) :
  readyToRecord w ->
  recordError (MetricValidationError msg ty) this w = ErrorManager_record this ty w.
Proof.
  intros (c & Hc & _ & _ & Hem).
  unfold recordError, bind, errorManager.
  rewrite (guardedGet_set _ _ c theErrorManager w Hc Hem). reflexivity.
Qed.

(** A valid delta: the task writes every ping and ends normally. *)
Lemma addUndispatched_valid (this : InternalCounterMetricType) (a : Z) (w : World) :
  readyToRecord w -> fault (database w) = None -> 0 < a ->
  addUndispatched this (Some (NInt a)) w =
  (Normal tt, foldl (recordInto this a) w (sendInPings this)).
Proof.
  intros Hready Hfault Ha.
  rewrite (addUndispatched_ready this _ w Hready).
  unfold tryCatch, MetricsDatabase_transform. rewrite Hfault. simpl.
  rewrite (transformPings_valid this a _ Ha). reflexivity.
Qed.

(** An invalid delta: the validation error of the closure is caught and
    handed to the error recorder; nothing is written to the store. *)
Lemma addUndispatched_invalid (this : InternalCounterMetricType) (n : JSNumber) (w : World)
    msg ty :
  readyToRecord w -> fault (database w) = None ->
  validate (JSNum n) = Error msg ty -> sendInPings this <> [] ->
  addUndispatched this (Some n) w = ErrorManager_record this ty w.
Proof.
  intros Hready Hfault Hn Hpings.
  rewrite (addUndispatched_ready this _ w Hready).
  unfold tryCatch, MetricsDatabase_transform. rewrite Hfault. simpl.
  rewrite (transformPings_invalid this n _ w msg ty Hn).
  destruct (sendInPings this) as [| ping rest]; [congruence |].
  simpl. apply (recordError_ready this msg ty w Hready).
Qed.

(** A failing store: whatever is not a validation error ends in the [catch]
    and goes no further. *)
Lemma addUndispatched_fault (this : InternalCounterMetricType) (amount : option JSNumber)
    (w : World) (e : Exception) :
  readyToRecord w -> fault (database w) = Some e ->
  instanceofMetricValidationError e = false ->
  addUndispatched this amount w = (Normal tt, w).
Proof.
  intros Hready Hfault He.
  rewrite (addUndispatched_ready this _ w Hready).
  unfold tryCatch, MetricsDatabase_transform. rewrite Hfault, He. reflexivity.
Qed.

(** ** What recording writes *)

Lemma recordInto_lookup_same (this : InternalCounterMetricType) (a : Z) (w : World)
    (ping : string) :
  entries (database (recordInto this a w ping)) !! (ping, identifier this) =
  Some (JSNum (NInt (mergedValue a (rawValue (database w) (ping, identifier this))))).
Proof. unfold recordInto. simpl. apply lookup_insert_eq. Qed.

Lemma recordInto_lookup_other (this : InternalCounterMetricType) (a : Z) (w : World)
    (ping : string) (key : StorageKey) :
  key <> (ping, identifier this) ->
  entries (database (recordInto this a w ping)) !! key = entries (database w) !! key.
Proof. intros Hkey. unfold recordInto. simpl. apply lookup_insert_ne. congruence. Qed.

(** Recording leaves the Context, the error counts, the clock and the
    health of the store as they were. *)
Lemma foldl_recordInto_frame (this : InternalCounterMetricType) (a : Z)
    (pings : list string) :
  forall w : World,
    let w' := foldl (recordInto this a) w pings in
    instanceSlot w' = instanceSlot w /\ errors w' = errors w /\
    clock w' = clock w /\ fault (database w') = fault (database w).
Proof.
  induction pings as [| ping rest IH]; intros w; simpl; [tauto |].
  destruct (IH (recordInto this a w ping)) as (Hi & He & Hc & Hf).
  simpl in *. rewrite Hi, He, Hc, Hf. tauto.
Qed.

Lemma foldl_recordInto_lookup_other (this : InternalCounterMetricType) (a : Z)
    (pings : list string) (key : StorageKey) :
  (forall ping, ping ∈ pings -> key <> (ping, identifier this)) ->
  forall w : World,
    entries (database (foldl (recordInto this a) w pings)) !! key =
    entries (database w) !! key.
Proof.
  induction pings as [| ping rest IH]; intros Hkey w; simpl; [reflexivity |].
  rewrite IH.
  - apply recordInto_lookup_other, Hkey. left.
  - intros p Hp. apply Hkey. right. exact Hp.
Qed.

(** Every destination ping of the metric ends up holding the merge of the
    delta with what the ping held before. *)
Lemma foldl_recordInto_lookup (this : InternalCounterMetricType) (a : Z)
    (pings : list string) :
  NoDup pings ->
  forall (w : World) (ping : string),
    ping ∈ pings ->
    entries (database (foldl (recordInto this a) w pings)) !! (ping, identifier this) =
    Some (JSNum (NInt (mergedValue a (rawValue (database w) (ping, identifier this))))).
Proof.
  induction 1 as [| p rest Hp Hnodup IH]; intros w ping Hin.
  - inversion Hin.
  - simpl. apply elem_of_cons in Hin as [-> | Hin].
    + rewrite foldl_recordInto_lookup_other.
      * apply recordInto_lookup_same.
      * intros q Hq Heq. inversion Heq; subst. contradiction.
    + rewrite (IH _ _ Hin). unfold rawValue at 1.
      rewrite recordInto_lookup_other; [reflexivity |].
      intros Heq. inversion Heq; subst. contradiction.
Qed.

(** The log grows by the warnings about what the pings held before. *)
Lemma foldl_recordInto_console (this : InternalCounterMetricType) (a : Z)
    (pings : list string) :
  NoDup pings ->
  forall w : World,
    console (foldl (recordInto this a) w pings) =
    (console w ++
     concat (map (fun ping => warningsFor this (rawValue (database w) (ping, identifier this)))
                 pings))%list.
Proof.
  induction 1 as [| p rest Hp Hnodup IH]; intros w; simpl.
  - rewrite app_nil_r. reflexivity.
  - rewrite IH. simpl. rewrite <- app_assoc. f_equal. f_equal. f_equal.
    apply map_ext_in. intros q Hq. unfold rawValue, writeValue. simpl.
    rewrite lookup_insert_ne; [reflexivity |].
    intros Heq. inversion Heq; subst. apply Hp, list_elem_of_In, Hq.
Qed.

Lemma foldl_recordInto_ready (this : InternalCounterMetricType) (a : Z)
    (pings : list string) (w : World) :
  readyToRecord w -> readyToRecord (foldl (recordInto this a) w pings).
Proof.
  intros (c & Hc & Hrest). exists c. split; [| exact Hrest].
  destruct (foldl_recordInto_frame this a pings w) as (-> & _). exact Hc.
Qed.

Lemma mergedValue_absent (a : Z) : mergedValue a JSUndefined = a.
Proof. reflexivity. Qed.

Lemma mergedValue_valid (a z : Z) :
  0 < z -> mergedValue a (JSNum (NInt z)) = Z.min (a + z) MAX_SAFE_INTEGER.
Proof.
  intros Hz. unfold mergedValue. rewrite validate_integer. simpl.
  destruct (Z.eqb_spec z 0); [lia |].
  destruct (Z.leb_spec z 0); [lia | reflexivity].
Qed.

Lemma initialisedWorld_ready : readyToRecord initialisedWorld.
Proof. exists initialisedContext. repeat split; reflexivity. Qed.

(** ** Recording twice *)

(** C1.  On a metric with no stored value, recording the positive integer
    [a] and then the positive integer [b] leaves [min (a + b) MAX] stored
    in every destination ping, and so does recording [b] and then [a]: the
    merge is commutative and stops at [MAX] (recording [MAX] and then 1
    leaves [MAX]). *)
Theorem recording_twice_saturating_sum (this : InternalCounterMetricType) (w : World)
    (a b : Z) (ping : string) :
  readyToRecord w ->
  fault (database w) = None ->
  NoDup (sendInPings this) ->
  (forall p, p ∈ sendInPings this -> getMetric p this w = None) ->
  0 < a -> 0 < b ->
  ping ∈ sendInPings this ->
  getMetric ping this
    (after (addUndispatched this (Some (NInt b)))
       (after (addUndispatched this (Some (NInt a))) w)) =
  Some (JSNum (NInt (Z.min (a + b) MAX_SAFE_INTEGER))) /\
  getMetric ping this
    (after (addUndispatched this (Some (NInt a)))
       (after (addUndispatched this (Some (NInt b))) w)) =
  Some (JSNum (NInt (Z.min (a + b) MAX_SAFE_INTEGER))).
Proof.
  intros Hready Hfault Hnodup Hempty Ha Hb Hping.
  assert (Hboth : forall x y, 0 < x -> 0 < y ->
            getMetric ping this
              (after (addUndispatched this (Some (NInt y)))
                 (after (addUndispatched this (Some (NInt x))) w)) =
            Some (JSNum (NInt (Z.min (y + x) MAX_SAFE_INTEGER)))).
  { intros x y Hx Hy. unfold after.
    rewrite (addUndispatched_valid this x w Hready Hfault Hx). cbn [snd].
    rewrite addUndispatched_valid;
      [| apply foldl_recordInto_ready, Hready
       | destruct (foldl_recordInto_frame this x (sendInPings this) w) as (_ & _ & _ & ->);
         exact Hfault
       | exact Hy ].
    cbn [snd]. unfold getMetric.
    rewrite (foldl_recordInto_lookup this y _ Hnodup _ ping Hping).
    unfold rawValue.
    rewrite (foldl_recordInto_lookup this x _ Hnodup _ ping Hping).
    unfold rawValue. specialize (Hempty ping Hping). unfold getMetric in Hempty.
    rewrite Hempty. cbn [from_option id].
    rewrite mergedValue_absent, (mergedValue_valid y x Hx).
    reflexivity. }
  split.
  - rewrite (Hboth a b Ha Hb). rewrite (Z.add_comm b a). reflexivity.
  - apply (Hboth b a Hb Ha).
Qed.

Lemma recording_twice_saturating_sum_witness :
  getMetric "metrics" clicks
    (after (addUndispatched clicks (Some (NInt 1)))
       (after (addUndispatched clicks (Some (NInt MAX_SAFE_INTEGER))) initialisedWorld)) =
  Some (JSNum (NInt MAX_SAFE_INTEGER)) /\
  getMetric "metrics" clicks
    (after (addUndispatched clicks (Some (NInt MAX_SAFE_INTEGER)))
       (after (addUndispatched clicks (Some (NInt 1))) initialisedWorld)) =
  Some (JSNum (NInt MAX_SAFE_INTEGER)).
Proof.
  apply (recording_twice_saturating_sum clicks initialisedWorld MAX_SAFE_INTEGER 1 "metrics").
  - exists initialisedContext. repeat split; reflexivity.
  - reflexivity.
  - apply NoDup_singleton.
  - intros p Hp. apply list_elem_of_singleton in Hp. subst p. reflexivity.
  - reflexivity.
  - reflexivity.
  - apply list_elem_of_singleton. reflexivity.
Defined.

(** ** Invalid amounts *)

Lemma numRecorded_recordOnce_same (em : ErrorManager) key :
  numRecorded (recordOnce key em) key = S (numRecorded em key).
Proof. unfold numRecorded at 1, recordOnce. simpl. rewrite lookup_insert_eq. reflexivity. Qed.

Lemma numRecorded_recordOnce_other (em : ErrorManager) key key' :
  key' <> key -> numRecorded (recordOnce key em) key' = numRecorded em key'.
Proof.
  intros Hne. unfold numRecorded, recordOnce. simpl.
  rewrite lookup_insert_ne; [reflexivity | congruence].
Qed.

Lemma foldl_recordOnce_other (id : MetricIdentifier) (kind : option ErrorType)
    (pings : list string) key :
  (forall ping, ping ∈ pings -> key <> (ping, id, kind)) ->
  forall em : ErrorManager,
    numRecorded (foldl (fun em ping => recordOnce (ping, id, kind) em) em pings) key =
    numRecorded em key.
Proof.
  induction pings as [| p rest IH]; intros Hkey em; simpl; [reflexivity |].
  rewrite IH.
  - apply numRecorded_recordOnce_other, Hkey. left.
  - intros q Hq. apply Hkey. right. exact Hq.
Qed.

Lemma foldl_recordOnce_same (id : MetricIdentifier) (kind : option ErrorType)
    (pings : list string) :
  NoDup pings ->
  forall (em : ErrorManager) (ping : string),
    ping ∈ pings ->
    numRecorded (foldl (fun em ping => recordOnce (ping, id, kind) em) em pings)
                (ping, id, kind) =
    S (numRecorded em (ping, id, kind)).
Proof.
  induction 1 as [| p rest Hp Hnodup IH]; intros em ping Hin.
  - inversion Hin.
  - simpl. apply elem_of_cons in Hin as [-> | Hin].
    + rewrite foldl_recordOnce_other.
      * apply numRecorded_recordOnce_same.
      * intros q Hq Heq. inversion Heq; subst. contradiction.
    + rewrite (IH _ _ Hin). f_equal.
      apply numRecorded_recordOnce_other.
      intros Heq. inversion Heq; subst. contradiction.
Qed.

(** The validation outcome of an amount that is not a positive integer. *)
Lemma validate_invalid_amount (n : JSNumber) :
  (forall z, n = NInt z -> z <= 0) ->
  exists msg, validate (JSNum n) = Error msg (recordedKind n).
Proof.
  intros Hn. destruct n as [z | q | | s]; simpl;
    try (eexists; reflexivity).
  rewrite validate_integer. specialize (Hn z eq_refl).
  destruct (Z.leb_spec z 0); [eauto | lia].
Qed.

(** C2, as the code has it.  With recording enabled, an amount that is
    zero, negative or not an integer leaves the store as it was, throws
    nothing, and is recorded as exactly one error occurrence per
    destination ping, under the error type of its validation outcome:
    [InvalidValue] for an integer at most 0, none for a number that is not
    an integer, whose [InvalidValue] count therefore stays as it was. *)
Theorem invalid_amount_recorded_once (this : InternalCounterMetricType) (w : World)
    (n : JSNumber) (ping : string) :
  readyToRecord w ->
  fault (database w) = None ->
  NoDup (sendInPings this) ->
  ping ∈ sendInPings this ->
  (forall z, n = NInt z -> z <= 0) ->
  fst (addUndispatched this (Some n) w) = Normal tt /\
  database (after (addUndispatched this (Some n)) w) = database w /\
  testGetNumRecordedErrors this (recordedKind n) ping
    (after (addUndispatched this (Some n)) w) =
  S (testGetNumRecordedErrors this (recordedKind n) ping w) /\
  (forall kind, kind <> recordedKind n ->
     testGetNumRecordedErrors this kind ping (after (addUndispatched this (Some n)) w) =
     testGetNumRecordedErrors this kind ping w).
Proof.
  intros Hready Hfault Hnodup Hping Hn.
  destruct (validate_invalid_amount n Hn) as [msg Hmsg].
  assert (Hpings : sendInPings this <> []).
  { intros Hnil. rewrite Hnil in Hping. inversion Hping. }
  unfold after.
  rewrite (addUndispatched_invalid this n w msg _ Hready Hfault Hmsg Hpings).
  unfold ErrorManager_record, testGetNumRecordedErrors. simpl.
  repeat split.
  - apply (foldl_recordOnce_same _ _ _ Hnodup _ _ Hping).
  - intros kind Hkind. apply foldl_recordOnce_other.
    intros q Hq Heq. inversion Heq; subst. contradiction.
Qed.

Lemma invalid_amount_recorded_once_witness :
  fst (addUndispatched clicks (Some (NInt (-3))) initialisedWorld) = Normal tt /\
  database (after (addUndispatched clicks (Some (NInt (-3)))) initialisedWorld) =
  database initialisedWorld /\
  testGetNumRecordedErrors clicks (Some InvalidValue) "metrics"
    (after (addUndispatched clicks (Some (NInt (-3)))) initialisedWorld) =
  S (testGetNumRecordedErrors clicks (Some InvalidValue) "metrics" initialisedWorld) /\
  (forall kind, kind <> Some InvalidValue ->
     testGetNumRecordedErrors clicks kind "metrics"
       (after (addUndispatched clicks (Some (NInt (-3)))) initialisedWorld) =
     testGetNumRecordedErrors clicks kind "metrics" initialisedWorld).
Proof.
  apply (invalid_amount_recorded_once clicks initialisedWorld (NInt (-3)) "metrics").
  - exists initialisedContext. repeat split; reflexivity.
  - reflexivity.
  - apply NoDup_singleton.
  - apply list_elem_of_singleton. reflexivity.
  - intros z Hz. inversion Hz. lia.
Defined.

(** C2 as stated fails at the amount 1.5: the call records an error, but
    not under [InvalidValue], whose count is not incremented. *)
Lemma non_integer_amount_not_InvalidValue :
  testGetNumRecordedErrors clicks (Some InvalidValue) "metrics"
    (after (addUndispatched clicks (Some (NFrac (3 # 2)))) initialisedWorld) <>
  S (testGetNumRecordedErrors clicks (Some InvalidValue) "metrics" initialisedWorld).
Proof. vm_compute. discriminate. Qed.

(** ** Corrupt stored values *)

Lemma mergedValue_corrupt (a : Z) (v : JSValue) :
  validate v <> Success -> mergedValue a v = a.
Proof.
  intros Hv. unfold mergedValue.
  destruct (truthy v); [| reflexivity].
  destruct (validate v); [contradiction | reflexivity].
Qed.

Lemma warningsFor_corrupt (this : InternalCounterMetricType) (v : JSValue) :
  truthy v = true -> validate v <> Success ->
  warningsFor this v = [overwriteWarning this v].
Proof.
  intros Ht Hv. unfold warningsFor. rewrite Ht.
  destruct (validate v); [contradiction | reflexivity].
Qed.

(** C3, as the code has it.  When a destination ping holds a truthy raw
    value that does not validate as a merge input, the next successful
    recording of a delta logs the warning that names the metric and the
    value, leaves exactly the wrapped delta stored, and increments no error
    count. *)
Theorem corrupt_value_overwritten (this : InternalCounterMetricType) (w : World)
    (a : Z) (ping : string) (v : JSValue) :
  readyToRecord w ->
  fault (database w) = None ->
  NoDup (sendInPings this) ->
  ping ∈ sendInPings this ->
  0 < a ->
  getMetric ping this w = Some v ->
  truthy v = true ->
  validate v <> Success ->
  fst (addUndispatched this (Some (NInt a)) w) = Normal tt /\
  getMetric ping this (after (addUndispatched this (Some (NInt a))) w) =
  Some (JSNum (NInt a)) /\
  (exists logged,
     console (after (addUndispatched this (Some (NInt a))) w) =
     (console w ++ logged)%list /\
     overwriteWarning this v ∈ logged) /\
  errors (after (addUndispatched this (Some (NInt a))) w) = errors w.
Proof.
  intros Hready Hfault Hnodup Hping Ha Hstored Htruthy Hcorrupt.
  unfold after. rewrite (addUndispatched_valid this a w Hready Hfault Ha).
  cbn [fst snd]. unfold getMetric in *.
  assert (Hraw : rawValue (database w) (ping, identifier this) = v).
  { unfold rawValue. rewrite Hstored. reflexivity. }
  split; [reflexivity |]. split; [| split].
  - rewrite (foldl_recordInto_lookup this a _ Hnodup _ ping Hping), Hraw.
    rewrite (mergedValue_corrupt a v Hcorrupt). reflexivity.
  - eexists. split; [apply (foldl_recordInto_console this a _ Hnodup) |].
    apply list_elem_of_In, in_concat.
    exists (warningsFor this v). split.
    + apply in_map_iff. exists ping. rewrite Hraw.
      split; [reflexivity | apply list_elem_of_In, Hping].
    + rewrite (warningsFor_corrupt this v Htruthy Hcorrupt). left. reflexivity.
  - apply (foldl_recordInto_frame this a (sendInPings this) w).
Qed.

Lemma corrupt_value_overwritten_witness :
  fst (addUndispatched clicks (Some (NInt 2)) (worldHolding (JSStr "seven"))) = Normal tt /\
  getMetric "metrics" clicks
    (after (addUndispatched clicks (Some (NInt 2))) (worldHolding (JSStr "seven"))) =
  Some (JSNum (NInt 2)) /\
  (exists logged,
     console (after (addUndispatched clicks (Some (NInt 2))) (worldHolding (JSStr "seven"))) =
     (console (worldHolding (JSStr "seven")) ++ logged)%list /\
     overwriteWarning clicks (JSStr "seven") ∈ logged) /\
  errors (after (addUndispatched clicks (Some (NInt 2))) (worldHolding (JSStr "seven"))) =
  errors (worldHolding (JSStr "seven")).
Proof.
  apply (corrupt_value_overwritten clicks (worldHolding (JSStr "seven")) 2 "metrics"
           (JSStr "seven")).
  - exists initialisedContext. repeat split; reflexivity.
  - reflexivity.
  - apply NoDup_singleton.
  - apply list_elem_of_singleton. reflexivity.
  - reflexivity.
  - reflexivity.
  - reflexivity.
  - discriminate.
Defined.

(** C3 as stated fails at the stored value 0: it does not validate as a
    merge input, and the next successful recording overwrites it, yet no
    warning is logged, because the closure only looks at truthy values. *)
Lemma stored_zero_overwritten_silently :
  getMetric "metrics" clicks (worldHolding (JSNum (NInt 0))) = Some (JSNum (NInt 0)) /\
  validate (JSNum (NInt 0)) <> Success /\
  fst (addUndispatched clicks (Some (NInt 5)) (worldHolding (JSNum (NInt 0)))) = Normal tt /\
  getMetric "metrics" clicks
    (after (addUndispatched clicks (Some (NInt 5))) (worldHolding (JSNum (NInt 0)))) =
  Some (JSNum (NInt 5)) /\
  console (after (addUndispatched clicks (Some (NInt 5))) (worldHolding (JSNum (NInt 0)))) = [].
Proof. repeat split; try reflexivity. discriminate. Qed.

(** ** Enqueueing, and the enablement flag *)

(** Launching a task through the Context appends it to the queue of the
    dispatcher, created on the spot if there is none, and does nothing
    else. *)
Lemma Context_dispatcher_launch_value (task : Task) (w : World) :
  Context_dispatcher_launch task w =
  (Normal tt,
   setInstance
     (with_dispatcher (Some {| queue := pending w ++ [task] |}) (currentInstance w)) w).
Proof.
  destruct w as [[c |] db em out now]; [destruct c as [[d |] up mdb edb pdb emr app dbg ini st] |];
    reflexivity.
Qed.

(** The task returns at once when the flag it reads is not [true]; the
    store and the error counts are as before. *)
Lemma addUndispatched_disabled (this : InternalCounterMetricType) (amount : option JSNumber)
    (w : World) :
  _uploadEnabled (currentInstance w) <> Some true ->
  fst (addUndispatched this amount w) = Normal tt /\
  database (after (addUndispatched this amount) w) = database w /\
  errors (after (addUndispatched this amount) w) = errors w.
Proof.
  intros Hflag.
  assert (Hrun : exists w', addUndispatched this amount w = (Normal tt, w') /\
                            database w' = database w /\ errors w' = errors w).
  { unfold addUndispatched, bind at 1, uploadEnabled.
    destruct (_uploadEnabled (currentInstance w)) as [[|] |] eqn:Hup.
    - congruence.
    - unfold guardedGet, bind. rewrite instance_value, Hup. simpl.
      unfold ret. rewrite Hup. simpl. eauto.
    - rewrite (guardedGet_unset _ _ w Hup). simpl. eauto. }
  destruct Hrun as (w' & Hrun & Hdb & Hem).
  unfold after. rewrite Hrun. auto.
Qed.

(** C5, as the code has it.  A public recording call never looks at the
    enablement flag: it always builds the closure and enqueues it through
    the Context's dispatcher, touching neither store nor error counts nor
    log.  The flag is read by the task when it runs, before anything else,
    and when it is not set the task leaves the stored values and all error
    counts as they were. *)
Theorem add_enqueues_and_task_checks_flag (this : InternalCounterMetricType)
    (amount : option JSNumber) (w : World) :
  (fst (add this amount w) = Normal tt /\
   pending (after (add this amount) w) = (pending w ++ [AddTask this amount])%list /\
   database (after (add this amount) w) = database w /\
   errors (after (add this amount) w) = errors w /\
   console (after (add this amount) w) = console w) /\
  (_uploadEnabled (currentInstance w) <> Some true ->
   fst (addUndispatched this amount w) = Normal tt /\
   database (after (addUndispatched this amount) w) = database w /\
   errors (after (addUndispatched this amount) w) = errors w).
Proof.
  split.
  - unfold after, add. rewrite Context_dispatcher_launch_value.
    repeat split; reflexivity.
  - apply addUndispatched_disabled.
Qed.

Lemma add_enqueues_and_task_checks_flag_witness :
  (fst (add clicks (Some (NInt 1)) disabledWorld) = Normal tt /\
   pending (after (add clicks (Some (NInt 1))) disabledWorld) =
   (pending disabledWorld ++ [AddTask clicks (Some (NInt 1))])%list /\
   database (after (add clicks (Some (NInt 1))) disabledWorld) = database disabledWorld /\
   errors (after (add clicks (Some (NInt 1))) disabledWorld) = errors disabledWorld /\
   console (after (add clicks (Some (NInt 1))) disabledWorld) = console disabledWorld) /\
  fst (addUndispatched clicks (Some (NInt 1)) disabledWorld) = Normal tt /\
  database (after (addUndispatched clicks (Some (NInt 1))) disabledWorld) =
  database disabledWorld /\
  errors (after (addUndispatched clicks (Some (NInt 1))) disabledWorld) =
  errors disabledWorld.
Proof.
  destruct (add_enqueues_and_task_checks_flag clicks (Some (NInt 1)) disabledWorld)
    as [Hadd Htask].
  split; [exact Hadd |]. apply Htask. discriminate.
Defined.

(** C5 as stated fails with the flag switched off: the recording call
    still builds the closure and puts it in the dispatcher's queue. *)
Lemma add_enqueues_when_disabled :
  _uploadEnabled (currentInstance disabledWorld) = Some false /\
  pending disabledWorld = [] /\
  pending (after (add clicks (Some (NInt 1))) disabledWorld) =
  [AddTask clicks (Some (NInt 1))].
Proof. repeat split; reflexivity. Qed.

(** ** Failures of the store *)

(** C6, as the code has it.  A failure of the store's transform that is
    not a validation error is caught by the [catch] of the recording task
    and dropped there: the task ends normally, nothing is propagated to
    whoever drives the queue, nothing is retried, and store, error counts
    and log are as they were. *)
Theorem store_failure_swallowed (this : InternalCounterMetricType)
    (amount : option JSNumber) (w : World) (e : Exception) :
  readyToRecord w ->
  fault (database w) = Some e ->
  instanceofMetricValidationError e = false ->
  MetricsDatabase_transform this (transformFn this (amountOrOne amount)) w = (Throw e, w) /\
  addUndispatched this amount w = (Normal tt, w).
Proof.
  intros Hready Hfault He. split.
  - unfold MetricsDatabase_transform. rewrite Hfault. reflexivity.
  - apply (addUndispatched_fault this amount w e Hready Hfault He).
Qed.

Lemma store_failure_swallowed_witness :
  MetricsDatabase_transform clicks (transformFn clicks (amountOrOne (Some (NInt 1))))
    failingWorld =
  (Throw (StoreFailure "quota exceeded"), failingWorld) /\
  addUndispatched clicks (Some (NInt 1)) failingWorld = (Normal tt, failingWorld).
Proof.
  apply (store_failure_swallowed clicks (Some (NInt 1)) failingWorld
           (StoreFailure "quota exceeded")).
  - exists initialisedContext. repeat split; reflexivity.
  - reflexivity.
  - reflexivity.
Defined.

(** C6 as stated fails on a store whose transform raises an I/O failure:
    the recording task does not end with that failure but normally. *)
Lemma store_failure_not_propagated :
  fst (MetricsDatabase_transform clicks (transformFn clicks (NInt 1)) failingWorld) =
  Throw (StoreFailure "quota exceeded") /\
  fst (addUndispatched clicks (Some (NInt 1)) failingWorld) <>
  Throw (StoreFailure "quota exceeded").
Proof. split; [reflexivity | discriminate]. Qed.

(** ** Reading the Context before initialisation *)

(** C8, as the code has it.  Reading any Context field other than the
    dispatcher before it is set logs exactly one entry, at error level, and
    returns an absent value without throwing; the Context is otherwise as
    it was and execution continues.  ([initialized] and [startTime] are set
    by the constructor, so they are never read unset.) *)
Theorem unset_field_read_logs_once (field : ContextField) (w : World) :
  field <> Field_dispatcher ->
  isSet field (currentInstance w) = false ->
  readsAbsent field w =
  (Normal true, appendLog (misuseEntry (propertyName field)) (setInstance (currentInstance w) w)).
Proof.
  intros Hfield Hunset.
  destruct field; simpl in Hunset; try congruence;
    unfold readsAbsent, bind, uploadEnabled, metricsDatabase, eventsDatabase,
      pingsDatabase, errorManager, applicationId, debugOptions;
    rewrite guardedGet_unset; try reflexivity;
    match goal with
    | |- ?f (currentInstance w) = None => destruct (f (currentInstance w)); [discriminate | reflexivity]
    end.
Qed.

Lemma unset_field_read_logs_once_witness :
  readsAbsent Field_uploadEnabled freshWorld =
  (Normal true,
   appendLog (misuseEntry "uploadEnabled") (setInstance (newContext 2000) freshWorld)).
Proof.
  apply (unset_field_read_logs_once Field_uploadEnabled freshWorld).
  - discriminate.
  - reflexivity.
Defined.

(** C8 as stated fails for the dispatcher field: read before it is set, its
    getter logs nothing and returns a dispatcher, not an absent value. *)
Lemma unset_dispatcher_read_is_silent :
  isSet Field_dispatcher (currentInstance freshWorld) = false /\
  fst (readsAbsent Field_dispatcher freshWorld) = Normal false /\
  console (after (readsAbsent Field_dispatcher) freshWorld) = [].
Proof. repeat split; reflexivity. Qed.

(** The two unguarded getters: [initialized] and [startTime] are returned
    as they are, present from the constructor on, and nothing is logged. *)
Lemma unguarded_fields_read_silently (field : ContextField) (w : World) :
  field = Field_initialized \/ field = Field_startTime ->
  readsAbsent field w = (Normal false, setInstance (currentInstance w) w).
Proof.
  intros [-> | ->]; unfold readsAbsent, initialized, startTime, bind;
    rewrite instance_value; reflexivity.
Qed.

(** A guarded field that is set is returned without a log entry. *)
Lemma set_field_read_silently (field : ContextField) (w : World) :
  field <> Field_dispatcher ->
  isSet field (currentInstance w) = true ->
  readsAbsent field w = (Normal false, setInstance (currentInstance w) w).
Proof.
  intros Hfield Hset.
  destruct field; try congruence;
    try (apply unguarded_fields_read_silently; auto; fail);
    simpl in Hset;
    unfold readsAbsent, bind, uploadEnabled, metricsDatabase, eventsDatabase,
      pingsDatabase, errorManager, applicationId, debugOptions, guardedGet, bind;
    rewrite instance_value;
    match goal with
    | H : negb (isUndefined ?x) = true |- _ => destruct x eqn:Hx; [| discriminate]
    end;
    simpl; unfold ret; rewrite Hx; reflexivity.
Qed.

(** ** Calls that do not touch the dispatcher *)

Lemma currentInstance_setInstance (c : Context) (w : World) :
  currentInstance (setInstance c w) = c.
Proof. reflexivity. Qed.

Lemma eraseQueue_idem (w : World) : eraseQueue (eraseQueue w) = eraseQueue w.
Proof. reflexivity. Qed.

Lemma queueBlind_ret {A : Type} (a : A) : queueBlind (ret a).
Proof. intros w. split; reflexivity. Qed.

Lemma queueBlind_throw {A : Type} (e : Exception) : queueBlind (@throw A e).
Proof. intros w. split; reflexivity. Qed.

Lemma queueBlind_liftCompletion {A : Type} (c : Completion A) :
  queueBlind (liftCompletion c).
Proof. intros w. split; reflexivity. Qed.

Lemma queueBlind_log tag message level : queueBlind (log tag message level).
Proof. intros w. split; reflexivity. Qed.

Lemma queueBlind_readRaw key : queueBlind (readRaw key).
Proof. intros w. split; reflexivity. Qed.

Lemma queueBlind_writeRaw key v : queueBlind (writeRaw key v).
Proof. intros w. split; reflexivity. Qed.

Lemma queueBlind_ErrorManager_record metric kind :
  queueBlind (ErrorManager_record metric kind).
Proof. intros w. split; reflexivity. Qed.

Lemma queueBlind_bind {A B : Type} (c : Eff A) (k : A -> Eff B) :
  queueBlind c -> (forall a, queueBlind (k a)) -> queueBlind (bind c k).
Proof.
  intros Hc Hk w. unfold bind. destruct (Hc w) as [Hq He]. rewrite He.
  destruct (c w) as [[a | e] w1]; simpl in *.
  - destruct (Hk a w1) as [Hq1 He1]. rewrite Hq1, He1. auto.
  - auto.
Qed.

Lemma queueBlind_tryCatch {A : Type} (body : Eff A) (handler : Exception -> Eff A) :
  queueBlind body -> (forall e, queueBlind (handler e)) -> queueBlind (tryCatch body handler).
Proof.
  intros Hb Hh w. unfold tryCatch. destruct (Hb w) as [Hq He]. rewrite He.
  destruct (body w) as [[a | e] w1]; simpl in *.
  - auto.
  - destruct (Hh e w1) as [Hq1 He1]. rewrite Hq1, He1. auto.
Qed.

(** A guarded getter of a field other than the dispatcher. *)
Lemma queueBlind_guardedGet {A : Type} (field : Context -> option A) (property : string) :
  (forall d c, field (with_dispatcher d c) = field c) ->
  queueBlind (guardedGet field property).
Proof.
  intros Hfield w. unfold guardedGet, bind.
  rewrite !instance_value. unfold eraseQueue at 1 2. rewrite !currentInstance_setInstance.
  rewrite Hfield.
  destruct w as [[c |] db em out now]; simpl;
    destruct (field _) eqn:Hf; simpl; unfold ret; simpl; rewrite ?Hfield, ?Hf; auto.
Qed.

Create HintDb queue_blind.

#[local] Hint Resolve queueBlind_ret queueBlind_throw queueBlind_liftCompletion
  queueBlind_log queueBlind_readRaw queueBlind_writeRaw queueBlind_ErrorManager_record
  queueBlind_bind queueBlind_tryCatch : queue_blind.

Lemma queueBlind_transformFn this amount v : queueBlind (transformFn this amount v).
Proof.
  unfold transformFn. apply queueBlind_bind; [auto with queue_blind |].
  intros metric. destruct (truthy v); auto 6 with queue_blind.
Qed.

Lemma queueBlind_transformPings this amount (pings : list string) :
  queueBlind (transformPings (identifier this) (transformFn this amount) pings).
Proof.
  induction pings as [| ping rest IH]; simpl; [auto with queue_blind |].
  apply queueBlind_bind; [auto with queue_blind |]. intros v.
  apply queueBlind_bind; [apply queueBlind_transformFn |]. intros metric.
  apply queueBlind_bind; [auto with queue_blind |]. intros _. exact IH.
Qed.

Lemma queueBlind_MetricsDatabase_transform this amount :
  queueBlind (MetricsDatabase_transform this (transformFn this amount)).
Proof.
  intros w. unfold MetricsDatabase_transform.
  change (database (eraseQueue w)) with (database w).
  destruct (fault (database w)); [split; reflexivity |].
  apply queueBlind_transformPings.
Qed.

Lemma queueBlind_recordError e this : queueBlind (recordError e this).
Proof.
  destruct e; simpl; auto with queue_blind.
  apply queueBlind_bind; [apply queueBlind_guardedGet; reflexivity |].
  intros [em |]; auto with queue_blind.
Qed.

(** The recording task does not touch the dispatcher. *)
Lemma queueBlind_addUndispatched this amount : queueBlind (addUndispatched this amount).
Proof.
  unfold addUndispatched.
  apply queueBlind_bind; [apply queueBlind_guardedGet; reflexivity |].
  intros enabled. destruct (negb (shouldRecord enabled)); [auto with queue_blind |].
  apply queueBlind_tryCatch.
  - apply queueBlind_bind; [apply queueBlind_guardedGet; reflexivity |].
    intros [db |]; [apply queueBlind_MetricsDatabase_transform | auto with queue_blind].
  - intros e. destruct (instanceofMetricValidationError e);
      [apply queueBlind_recordError | auto with queue_blind].
Qed.

Lemma queueBlind_runTask (task : Task) : queueBlind (runTask task).
Proof. destruct task. apply queueBlind_addUndispatched. Qed.

(** ** The queue *)

Lemma after_runTask_eraseQueue (task : Task) (w : World) :
  after (runTask task) (eraseQueue w) = eraseQueue (after (runTask task) w).
Proof.
  unfold after. destruct (queueBlind_runTask task w) as [_ He]. rewrite He. reflexivity.
Qed.

Lemma runAll_eraseQueue (tasks : list Task) :
  forall w : World, runAll tasks (eraseQueue w) = eraseQueue (runAll tasks w).
Proof.
  unfold runAll. induction tasks as [| task rest IH]; intros w; simpl; [reflexivity |].
  rewrite after_runTask_eraseQueue. apply IH.
Qed.

Lemma launch_pending (task : Task) (w : World) :
  pending (after (Context_dispatcher_launch task) w) = (pending w ++ [task])%list.
Proof. unfold after. rewrite Context_dispatcher_launch_value. reflexivity. Qed.

Lemma launch_eraseQueue (task : Task) (w : World) :
  eraseQueue (after (Context_dispatcher_launch task) w) = eraseQueue w.
Proof. unfold after. rewrite Context_dispatcher_launch_value. reflexivity. Qed.

(** A turn of the worker on an empty queue does nothing. *)
Lemma processNext_empty (w : World) :
  pending w = [] -> processNext w = (Normal None, w).
Proof.
  unfold pending, processNext.
  destruct (instanceSlot w) as [c |]; [| reflexivity].
  destruct (_dispatcher c) as [d |]; [| reflexivity].
  intros ->. reflexivity.
Qed.

(** A turn of the worker on a queue that is not empty runs the oldest
    task, and that task only, to its end. *)
Lemma processNext_cons (w : World) (task : Task) (rest : list Task) :
  pending w = task :: rest ->
  fst (processNext w) = Normal (Some task) /\
  pending (after processNext w) = rest /\
  eraseQueue (after processNext w) = after (runTask task) (eraseQueue w).
Proof.
  unfold after, pending at 1, processNext.
  destruct w as [[c |] db em out now]; simpl; [| discriminate].
  destruct (_dispatcher c) as [d |] eqn:Hd; [| discriminate].
  intros ->. simpl.
  set (w1 := setInstance (with_dispatcher (Some {| queue := rest |}) c)
               {| instanceSlot := Some c; database := db; errors := em;
                  console := out; clock := now |}).
  destruct (queueBlind_runTask task w1) as [Hq He].
  split; [reflexivity |]. split; [exact Hq |].
  change (eraseQueue {| instanceSlot := Some c; database := db; errors := em;
                        console := out; clock := now |}) with (eraseQueue w1).
  unfold after. rewrite He. reflexivity.
Qed.

(** Under any schedule, the tasks executed so far followed by the tasks
    still waiting are the tasks that were waiting at the start followed by
    the launched ones; and, the dispatcher apart, the world is the one the
    executed tasks produce when run one after the other. *)
Lemma runEvents_invariant (events : list Event) :
  forall w : World,
    (fst (runEvents events w) ++ pending (snd (runEvents events w)))%list =
    (pending w ++ launchedBy events)%list /\
    eraseQueue (snd (runEvents events w)) =
    runAll (fst (runEvents events w)) (eraseQueue w).
Proof.
  induction events as [| [task |] rest IH]; intros w; simpl.
  - rewrite app_nil_r. split; reflexivity.
  - destruct (IH (after (Context_dispatcher_launch task) w)) as [Hq He].
    rewrite Hq, He, launch_pending, launch_eraseQueue, <- app_assoc. split; reflexivity.
  - destruct (pending w) as [| task waiting] eqn:Hpending.
    + assert (Hsame : after processNext w = w)
        by (unfold after; rewrite (processNext_empty w Hpending); reflexivity).
      rewrite Hsame, (processNext_empty w Hpending).
      destruct (IH w) as [Hq He]. rewrite Hpending in Hq.
      destruct (runEvents rest w) as [executed w']. split; assumption.
    + destruct (processNext_cons w task waiting Hpending) as (Hfst & Hrest & Herase).
      destruct (IH (after processNext w)) as [Hq He].
      destruct (runEvents rest (after processNext w)) as [executed w'].
      rewrite Hfst. simpl in *. rewrite Hq, Hrest. split; [reflexivity |].
      rewrite He, Herase. reflexivity.
Qed.

(** C9.  Starting from an empty queue and under any schedule of launches
    and worker turns, the tasks are executed in the order in which they
    were launched: the executed tasks followed by the waiting ones are the
    launched ones, so whenever [B] was launched after [A] and has been
    executed, [A] was executed, and earlier; and the store and the error
    counts are those obtained by running the executed tasks one at a time,
    each to its end before the next begins. *)
Theorem tasks_execute_in_launch_order (events : list Event) (w : World) :
  pending w = [] ->
  (fst (runEvents events w) ++ pending (snd (runEvents events w)))%list =
  launchedBy events /\
  (forall (i j : nat) (A B : Task),
      (i < j)%nat ->
      launchedBy events !! i = Some A ->
      launchedBy events !! j = Some B ->
      (j < length (fst (runEvents events w)))%nat ->
      fst (runEvents events w) !! i = Some A /\ fst (runEvents events w) !! j = Some B) /\
  database (snd (runEvents events w)) = database (runAll (fst (runEvents events w)) w) /\
  errors (snd (runEvents events w)) = errors (runAll (fst (runEvents events w)) w).
Proof.
  intros Hempty.
  destruct (runEvents_invariant events w) as [Hq He].
  rewrite Hempty in Hq. simpl in Hq.
  split; [exact Hq |]. split.
  - intros i j A B Hij HA HB Hj. rewrite <- Hq in HA, HB.
    rewrite lookup_app_l in HA by lia. rewrite lookup_app_l in HB by lia. auto.
  - rewrite runAll_eraseQueue in He.
    split.
    + change (database (snd (runEvents events w)))
        with (database (eraseQueue (snd (runEvents events w)))).
      rewrite He. reflexivity.
    + change (errors (snd (runEvents events w)))
        with (errors (eraseQueue (snd (runEvents events w)))).
      rewrite He. reflexivity.
Qed.

Lemma tasks_execute_in_launch_order_witness :
  (fst (runEvents sampleSchedule initialisedWorld) ++
   pending (snd (runEvents sampleSchedule initialisedWorld)))%list =
  launchedBy sampleSchedule /\
  (forall (i j : nat) (A B : Task),
      (i < j)%nat ->
      launchedBy sampleSchedule !! i = Some A ->
      launchedBy sampleSchedule !! j = Some B ->
      (j < length (fst (runEvents sampleSchedule initialisedWorld)))%nat ->
      fst (runEvents sampleSchedule initialisedWorld) !! i = Some A /\
      fst (runEvents sampleSchedule initialisedWorld) !! j = Some B) /\
  database (snd (runEvents sampleSchedule initialisedWorld)) =
  database (runAll (fst (runEvents sampleSchedule initialisedWorld)) initialisedWorld) /\
  errors (snd (runEvents sampleSchedule initialisedWorld)) =
  errors (runAll (fst (runEvents sampleSchedule initialisedWorld)) initialisedWorld).
Proof.
  apply (tasks_execute_in_launch_order sampleSchedule initialisedWorld).
  reflexivity.
Defined.

(** The sample schedule executes its three tasks in launch order, and the
    store ends up holding 2 + 1. *)
Example sampleSchedule_run :
  fst (runEvents sampleSchedule initialisedWorld) =
  [AddTask clicks (Some (NInt 2)); AddTask clicks (Some (NInt 0)); AddTask clicks None] /\
  getMetric "metrics" clicks (snd (runEvents sampleSchedule initialisedWorld)) =
  Some (JSNum (NInt 3)) /\
  testGetNumRecordedErrors clicks (Some InvalidValue) "metrics"
    (snd (runEvents sampleSchedule initialisedWorld)) = 1%nat.
Proof. repeat split; vm_compute; reflexivity. Qed.

(** ** Test-mode reset *)

Lemma testUninitialize_value (w : World) :
  testUninitialize w =
  (Normal tt,
   setInstance
     (with_startTime (clock w)
        (with_initialized false (with_dispatcher None (currentInstance w))))
     w).
Proof.
  destruct w as [[c |] db em out now];
    [destruct c as [[d |] up mdb edb pdb emr app dbg ini st] |]; reflexivity.
Qed.

(** C7, as the code has it.  [testUninitialize] clears the dispatcher
    reference, sets [initialized] to false and the start time to the
    current time; every other Context field (enablement flag, store handle,
    error recorder among them) keeps its value, and store, error counts and
    log are untouched.  A recording call after it recreates a dispatcher
    through the lazy getter, holding the one task, without those fields
    being set again; and a worker turn on that dispatcher runs the task as
    the recording it is. *)
Theorem testUninitialize_resets_queue_flag_time (w : World) :
  fst (testUninitialize w) = Normal tt /\
  (let c := currentInstance w in
   let c' := currentInstance (after testUninitialize w) in
   instanceSlot (after testUninitialize w) = Some c' /\
   _dispatcher c' = None /\ _initialized c' = false /\ _startTime c' = clock w /\
   _uploadEnabled c' = _uploadEnabled c /\
   _metricsDatabase c' = _metricsDatabase c /\
   _eventsDatabase c' = _eventsDatabase c /\
   _pingsDatabase c' = _pingsDatabase c /\
   _errorManager c' = _errorManager c /\
   _applicationId c' = _applicationId c /\
   _debugOptions c' = _debugOptions c) /\
  database (after testUninitialize w) = database w /\
  errors (after testUninitialize w) = errors w /\
  console (after testUninitialize w) = console w /\
  (forall (this : InternalCounterMetricType) (amount : option JSNumber),
     let w1 := after testUninitialize w in
     let w2 := after (add this amount) w1 in
     fst (add this amount w1) = Normal tt /\
     _dispatcher (currentInstance w2) = Some {| queue := [AddTask this amount] |} /\
     with_dispatcher None (currentInstance w2) = currentInstance w1 /\
     fst (processNext w2) = Normal (Some (AddTask this amount)) /\
     pending (after processNext w2) = [] /\
     database (after processNext w2) = database (after (addUndispatched this amount) w1) /\
     errors (after processNext w2) = errors (after (addUndispatched this amount) w1)).
Proof.
  unfold after at 1 2 3 4 5. rewrite testUninitialize_value. cbn [fst snd].
  split; [reflexivity |]. split; [repeat split; reflexivity |].
  split; [reflexivity |]. split; [reflexivity |]. split; [reflexivity |].
  intros this amount.
  set (w1 := after testUninitialize w). set (w2 := after (add this amount) w1).
  assert (Hw1 : w1 = setInstance
                       (with_startTime (clock w)
                          (with_initialized false
                             (with_dispatcher None (currentInstance w)))) w).
  { unfold w1, after. rewrite testUninitialize_value. reflexivity. }
  assert (Hw2 : w2 = setInstance
                       (with_dispatcher (Some {| queue := [AddTask this amount] |})
                          (currentInstance w1)) w1).
  { unfold w2, after, add. rewrite Context_dispatcher_launch_value.
    rewrite Hw1. reflexivity. }
  assert (Hpending : pending w2 = [AddTask this amount]) by (rewrite Hw2; reflexivity).
  destruct (processNext_cons w2 _ _ Hpending) as (Hfst & Hrest & Herase).
  assert (Herase2 : eraseQueue w2 = w1) by (rewrite Hw2, Hw1; reflexivity).
  rewrite Herase2 in Herase.
  split; [unfold add; rewrite Context_dispatcher_launch_value; reflexivity |].
  split; [rewrite Hw2; reflexivity |].
  split; [rewrite Hw2, Hw1; reflexivity |].
  split; [exact Hfst |]. split; [exact Hrest |].
  change (runTask (AddTask this amount)) with (addUndispatched this amount) in Herase.
  rewrite <- Herase. split; reflexivity.
Qed.

(** C7 as stated fails on an initialised Context: [testUninitialize] also
    changes the [initialized] flag and the start time, which are Context
    fields other than the dispatcher reference. *)
Lemma testUninitialize_changes_other_fields :
  _initialized (currentInstance initialisedWorld) = true /\
  _initialized (currentInstance (after testUninitialize initialisedWorld)) = false /\
  _startTime (currentInstance initialisedWorld) = 1000 /\
  _startTime (currentInstance (after testUninitialize initialisedWorld)) = 2000.
Proof. repeat split; reflexivity. Qed.

(** * Further properties *)

(** ** Merging into what is stored *)

(** Everything [validate] accepts is truthy, so the guard [if (v)] of the
    closure never skips a valid stored value. *)
Lemma valid_is_truthy (v : JSValue) : validate v = Success -> truthy v = true.
Proof.
  intros Hv. destruct (validate_Success_inv v Hv) as (z & -> & Hz).
  simpl. destruct (Z.eqb_spec z 0); [lia | reflexivity].
Qed.

Lemma warningsFor_valid (this : InternalCounterMetricType) (v : JSValue) :
  validate v = Success -> warningsFor this v = [].
Proof.
  intros Hv. unfold warningsFor. rewrite (valid_is_truthy v Hv), Hv. reflexivity.
Qed.

Lemma warningsFor_falsy (this : InternalCounterMetricType) (v : JSValue) :
  truthy v = false -> warningsFor this v = [].
Proof. intros Hv. unfold warningsFor. rewrite Hv. reflexivity. Qed.

Lemma no_warnings (this : InternalCounterMetricType) (db : MetricsDatabase)
    (pings : list string) :
  (forall p, p ∈ pings -> warningsFor this (rawValue db (p, identifier this)) = []) ->
  concat (map (fun p => warningsFor this (rawValue db (p, identifier this))) pings) = [].
Proof.
  induction pings as [| p rest IH]; intros Hnone; [reflexivity |]. simpl.
  rewrite (Hnone p) by left. simpl. apply IH.
  intros q Hq. apply Hnone. right. exact Hq.
Qed.

(** Recording a valid delta: what one destination ping holds afterwards,
    from what it held before. *)
Lemma addUndispatched_valid_lookup (this : InternalCounterMetricType) (w : World) (a : Z)
    (ping : string) :
  readyToRecord w -> fault (database w) = None -> NoDup (sendInPings this) ->
  0 < a -> ping ∈ sendInPings this ->
  getMetric ping this (after (addUndispatched this (Some (NInt a))) w) =
  Some (JSNum (NInt (mergedValue a (rawValue (database w) (ping, identifier this))))).
Proof.
  intros Hready Hfault Hnodup Ha Hping. unfold after.
  rewrite (addUndispatched_valid this a w Hready Hfault Ha). cbn [snd].
  apply (foldl_recordInto_lookup this a _ Hnodup w ping Hping).
Qed.

Lemma addUndispatched_valid_ready (this : InternalCounterMetricType) (w : World) (a : Z) :
  readyToRecord w -> fault (database w) = None -> 0 < a ->
  readyToRecord (after (addUndispatched this (Some (NInt a))) w) /\
  fault (database (after (addUndispatched this (Some (NInt a))) w)) = None.
Proof.
  intros Hready Hfault Ha. unfold after.
  rewrite (addUndispatched_valid this a w Hready Hfault Ha). cbn [snd]. split.
  - apply foldl_recordInto_ready, Hready.
  - destruct (foldl_recordInto_frame this a (sendInPings this) w) as (_ & _ & _ & ->).
    exact Hfault.
Qed.

(** X1.  Recording a positive integer onto a valid stored count [z] stores
    [min (a + z) MAX]: the stored value is never above [MAX] afterwards,
    never below a previous value that was itself at most [MAX], and a count
    that has reached [MAX] stays there; nothing is logged, no error is
    recorded and nothing is thrown. *)
Theorem merge_into_valid_count (this : InternalCounterMetricType) (w : World)
    (a z : Z) (ping : string) :
  readyToRecord w ->
  fault (database w) = None ->
  NoDup (sendInPings this) ->
  (forall p, p ∈ sendInPings this -> getMetric p this w = Some (JSNum (NInt z))) ->
  0 < a -> 0 < z ->
  ping ∈ sendInPings this ->
  exists r : Z,
    getMetric ping this (after (addUndispatched this (Some (NInt a))) w) =
    Some (JSNum (NInt r)) /\
    r = Z.min (a + z) MAX_SAFE_INTEGER /\
    r <= MAX_SAFE_INTEGER /\
    (z <= MAX_SAFE_INTEGER -> z <= r) /\
    (z < MAX_SAFE_INTEGER -> z < r) /\
    (MAX_SAFE_INTEGER <= z -> r = MAX_SAFE_INTEGER) /\
    fst (addUndispatched this (Some (NInt a)) w) = Normal tt /\
    console (after (addUndispatched this (Some (NInt a))) w) = console w /\
    errors (after (addUndispatched this (Some (NInt a))) w) = errors w.
Proof.
  intros Hready Hfault Hnodup Hstored Ha Hz Hping.
  exists (Z.min (a + z) MAX_SAFE_INTEGER).
  assert (Hraw : forall p, p ∈ sendInPings this ->
                           rawValue (database w) (p, identifier this) = JSNum (NInt z)).
  { intros p Hp. specialize (Hstored p Hp). unfold getMetric in Hstored.
    unfold rawValue. rewrite Hstored. reflexivity. }
  split.
  { rewrite (addUndispatched_valid_lookup this w a ping Hready Hfault Hnodup Ha Hping).
    rewrite (Hraw ping Hping), (mergedValue_valid a z Hz). reflexivity. }
  split; [reflexivity |].
  assert (HM : 0 < MAX_SAFE_INTEGER) by reflexivity.
  repeat (split; [lia |]).
  unfold after. rewrite (addUndispatched_valid this a w Hready Hfault Ha). cbn [fst snd].
  split; [reflexivity |]. split.
  - rewrite (foldl_recordInto_console this a _ Hnodup).
    rewrite no_warnings; [apply app_nil_r |].
    intros p Hp. rewrite (Hraw p Hp). apply warningsFor_valid.
    rewrite validate_integer. destruct (Z.leb_spec z 0); [lia | reflexivity].
  - apply (foldl_recordInto_frame this a (sendInPings this) w).
Qed.

Lemma merge_into_valid_count_witness :
  exists r : Z,
    getMetric "metrics" clicks
      (after (addUndispatched clicks (Some (NInt 5))) (worldHolding (JSNum (NInt 7)))) =
    Some (JSNum (NInt r)) /\
    r = Z.min (5 + 7) MAX_SAFE_INTEGER /\
    r <= MAX_SAFE_INTEGER /\
    (7 <= MAX_SAFE_INTEGER -> 7 <= r) /\
    (7 < MAX_SAFE_INTEGER -> 7 < r) /\
    (MAX_SAFE_INTEGER <= 7 -> r = MAX_SAFE_INTEGER) /\
    fst (addUndispatched clicks (Some (NInt 5)) (worldHolding (JSNum (NInt 7)))) =
    Normal tt /\
    console (after (addUndispatched clicks (Some (NInt 5))) (worldHolding (JSNum (NInt 7)))) =
    console (worldHolding (JSNum (NInt 7))) /\
    errors (after (addUndispatched clicks (Some (NInt 5))) (worldHolding (JSNum (NInt 7)))) =
    errors (worldHolding (JSNum (NInt 7))).
Proof.
  apply (merge_into_valid_count clicks (worldHolding (JSNum (NInt 7))) 5 7 "metrics").
  - exists initialisedContext. repeat split; reflexivity.
  - reflexivity.
  - apply NoDup_singleton.
  - intros p Hp. apply list_elem_of_singleton in Hp. subst p. reflexivity.
  - reflexivity.
  - reflexivity.
  - apply list_elem_of_singleton. reflexivity.
Defined.

(** X2.  Recording a positive integer into a ping that holds nothing, or
    a falsy value, stores the amount itself: the first recording is not
    clamped, so an amount above [MAX] is stored as it is. *)
Theorem first_recording_not_clamped (this : InternalCounterMetricType) (w : World)
    (a : Z) (ping : string) :
  readyToRecord w ->
  fault (database w) = None ->
  NoDup (sendInPings this) ->
  ping ∈ sendInPings this ->
  0 < a ->
  truthy (rawValue (database w) (ping, identifier this)) = false ->
  getMetric ping this (after (addUndispatched this (Some (NInt a))) w) =
  Some (JSNum (NInt a)).
Proof.
  intros Hready Hfault Hnodup Hping Ha Hfalsy.
  rewrite (addUndispatched_valid_lookup this w a ping Hready Hfault Hnodup Ha Hping).
  unfold mergedValue. rewrite Hfalsy. reflexivity.
Qed.

Lemma first_recording_not_clamped_witness :
  getMetric "metrics" clicks
    (after (addUndispatched clicks (Some (NInt (MAX_SAFE_INTEGER + 10)))) initialisedWorld) =
  Some (JSNum (NInt (MAX_SAFE_INTEGER + 10))).
Proof.
  apply (first_recording_not_clamped clicks initialisedWorld (MAX_SAFE_INTEGER + 10)
           "metrics").
  - exists initialisedContext. repeat split; reflexivity.
  - reflexivity.
  - apply NoDup_singleton.
  - apply list_elem_of_singleton. reflexivity.
  - reflexivity.
  - reflexivity.
Defined.

(** ** Recording many times *)

Lemma total_positive (amounts : list Z) :
  Forall (fun a => 0 < a) amounts -> amounts <> [] -> 0 < total amounts.
Proof.
  induction 1 as [| a rest Ha Hrest IH]; intros Hne; [congruence |].
  simpl. destruct rest as [| b rest'].
  - simpl. lia.
  - assert (0 < total (b :: rest')) by (apply IH; discriminate). unfold total in *. lia.
Qed.

Lemma total_Permutation (l l' : list Z) : l ≡ₚ l' -> total l = total l'.
Proof.
  induction 1 as [| x l l' _ IH | x y l | l l' l'' _ IH1 _ IH2]; unfold total in *; simpl;
    lia.
Qed.

(** Recording positive amounts onto a count [z] that every destination
    ping holds. *)
Lemma recordEach_onto_count (this : InternalCounterMetricType) (amounts : list Z)
    (ping : string) :
  NoDup (sendInPings this) ->
  ping ∈ sendInPings this ->
  Forall (fun a => 0 < a) amounts ->
  forall (w : World) (z : Z),
    readyToRecord w ->
    fault (database w) = None ->
    (forall p, p ∈ sendInPings this -> getMetric p this w = Some (JSNum (NInt z))) ->
    0 < z ->
    getMetric ping this (recordEach this amounts w) =
    Some (JSNum (NInt (match amounts with
                       | [] => z
                       | _ => Z.min (z + total amounts) MAX_SAFE_INTEGER
                       end))).
Proof.
  intros Hnodup Hping. induction 1 as [| b rest Hb Hrest IH];
    intros w z Hready Hfault Hstored Hz.
  - simpl. apply Hstored, Hping.
  - unfold recordEach. simpl.
    destruct (addUndispatched_valid_ready this w b Hready Hfault Hb) as [Hready1 Hfault1].
    set (w1 := after (addUndispatched this (Some (NInt b))) w) in *.
    assert (Hstored1 : forall p, p ∈ sendInPings this ->
              getMetric p this w1 =
              Some (JSNum (NInt (Z.min (b + z) MAX_SAFE_INTEGER)))).
    { intros p Hp. unfold w1.
      rewrite (addUndispatched_valid_lookup this w b p Hready Hfault Hnodup Hb Hp).
      specialize (Hstored p Hp). unfold getMetric in Hstored. unfold rawValue.
      rewrite Hstored. cbn [from_option id]. rewrite (mergedValue_valid b z Hz).
      reflexivity. }
    assert (HM : 0 < MAX_SAFE_INTEGER) by reflexivity.
    assert (Hz1 : 0 < Z.min (b + z) MAX_SAFE_INTEGER) by lia.
    specialize (IH w1 _ Hready1 Hfault1 Hstored1 Hz1).
    unfold recordEach in IH. rewrite IH.
    destruct rest as [| c rest'].
    + unfold total. simpl. do 3 f_equal. lia.
    + assert (0 < total (c :: rest')) by (apply total_positive; [exact Hrest | discriminate]).
      change (total (b :: c :: rest')) with (b + total (c :: rest')).
      do 3 f_equal. lia.
Qed.

(** Recording positive amounts into a metric that has no stored value. *)
Lemma recordEach_fresh (this : InternalCounterMetricType) (amounts : list Z)
    (w : World) (ping : string) :
  readyToRecord w ->
  fault (database w) = None ->
  NoDup (sendInPings this) ->
  (forall p, p ∈ sendInPings this -> getMetric p this w = None) ->
  Forall (fun a => 0 < a) amounts ->
  ping ∈ sendInPings this ->
  getMetric ping this (recordEach this amounts w) = storedAfter amounts.
Proof.
  intros Hready Hfault Hnodup Hempty Hpos Hping.
  destruct amounts as [| a rest]; [apply Hempty, Hping |].
  inversion Hpos as [| ? ? Ha Hrest]; subst.
  destruct (addUndispatched_valid_ready this w a Hready Hfault Ha) as [Hready1 Hfault1].
  change (recordEach this (a :: rest) w)
    with (recordEach this rest (after (addUndispatched this (Some (NInt a))) w)).
  rewrite (recordEach_onto_count this rest ping Hnodup Hping Hrest _ a Hready1 Hfault1).
  - destruct rest; reflexivity.
  - intros p Hp.
    rewrite (addUndispatched_valid_lookup this w a p Hready Hfault Hnodup Ha Hp).
    specialize (Hempty p Hp). unfold getMetric in Hempty. unfold rawValue.
    rewrite Hempty. reflexivity.
  - exact Ha.
Qed.

(** X3.  Recording two or more positive integers, one call after the
    other, into a metric without stored value leaves the saturated sum of
    all of them, [min (sum) MAX], in every destination ping. *)
Theorem recording_many_saturating_sum (this : InternalCounterMetricType)
    (amounts : list Z) (w : World) (ping : string) :
  readyToRecord w ->
  fault (database w) = None ->
  NoDup (sendInPings this) ->
  (forall p, p ∈ sendInPings this -> getMetric p this w = None) ->
  Forall (fun a => 0 < a) amounts ->
  (2 <= length amounts)%nat ->
  ping ∈ sendInPings this ->
  getMetric ping this (recordEach this amounts w) =
  Some (JSNum (NInt (Z.min (total amounts) MAX_SAFE_INTEGER))).
Proof.
  intros Hready Hfault Hnodup Hempty Hpos Hlen Hping.
  rewrite (recordEach_fresh this amounts w ping Hready Hfault Hnodup Hempty Hpos Hping).
  destruct amounts as [| a [| b rest]]; simpl in Hlen; try lia. reflexivity.
Qed.

Lemma recording_many_saturating_sum_witness :
  getMetric "metrics" clicks (recordEach clicks [3; 4; 5] initialisedWorld) =
  Some (JSNum (NInt (Z.min (total [3; 4; 5]) MAX_SAFE_INTEGER))).
Proof.
  apply (recording_many_saturating_sum clicks [3; 4; 5] initialisedWorld "metrics").
  - exists initialisedContext. repeat split; reflexivity.
  - reflexivity.
  - apply NoDup_singleton.
  - intros p Hp. apply list_elem_of_singleton in Hp. subst p. reflexivity.
  - repeat constructor.
  - simpl. lia.
  - apply list_elem_of_singleton. reflexivity.
Defined.

(** X4.  The order of the recordings does not matter: recording the same
    positive amounts in any other order leaves the same stored value. *)
Theorem recording_order_irrelevant (this : InternalCounterMetricType)
    (amounts amounts' : list Z) (w : World) (ping : string) :
  readyToRecord w ->
  fault (database w) = None ->
  NoDup (sendInPings this) ->
  (forall p, p ∈ sendInPings this -> getMetric p this w = None) ->
  Forall (fun a => 0 < a) amounts ->
  amounts ≡ₚ amounts' ->
  ping ∈ sendInPings this ->
  getMetric ping this (recordEach this amounts w) =
  getMetric ping this (recordEach this amounts' w).
Proof.
  intros Hready Hfault Hnodup Hempty Hpos Hperm Hping.
  assert (Hpos' : Forall (fun a => 0 < a) amounts') by (rewrite <- Hperm; exact Hpos).
  rewrite (recordEach_fresh this amounts w ping Hready Hfault Hnodup Hempty Hpos Hping).
  rewrite (recordEach_fresh this amounts' w ping Hready Hfault Hnodup Hempty Hpos' Hping).
  pose proof (Permutation_length Hperm) as Hlen.
  pose proof (total_Permutation _ _ Hperm) as Htotal.
  destruct amounts as [| a [| b rest]]; destruct amounts' as [| a' [| b' rest']];
    simpl in Hlen; try discriminate; try reflexivity.
  - apply Permutation_singleton_inj in Hperm. subst. reflexivity.
  - unfold storedAfter. rewrite Htotal. reflexivity.
Qed.

Lemma recording_order_irrelevant_witness :
  getMetric "metrics" clicks (recordEach clicks [3; 4; 5] initialisedWorld) =
  getMetric "metrics" clicks (recordEach clicks [5; 3; 4] initialisedWorld).
Proof.
  apply (recording_order_irrelevant clicks [3; 4; 5] [5; 3; 4] initialisedWorld "metrics").
  - exists initialisedContext. repeat split; reflexivity.
  - reflexivity.
  - apply NoDup_singleton.
  - intros p Hp. apply list_elem_of_singleton in Hp. subst p. reflexivity.
  - repeat constructor.
  - apply (Permutation_cons_app [5] [4] 3). apply perm_swap.
  - apply list_elem_of_singleton. reflexivity.
Defined.

(** ** What a recording can change *)

Lemma recordingStep_same (this : InternalCounterMetricType) (w w' : World) :
  currentInstance w' = currentInstance w -> clock w' = clock w ->
  database w' = database w -> errors w' = errors w ->
  recordingStep this w w'.
Proof.
  intros Hc Hk Hd He. unfold recordingStep. rewrite Hc, Hk, Hd, He.
  repeat split; intros; left; reflexivity.
Qed.

Lemma recordingStep_refl (this : InternalCounterMetricType) (w : World) :
  recordingStep this w w.
Proof. apply recordingStep_same; reflexivity. Qed.

Lemma recordingStep_trans (this : InternalCounterMetricType) (w1 w2 w3 : World) :
  recordingStep this w1 w2 -> recordingStep this w2 w3 -> recordingStep this w1 w3.
Proof.
  intros (Hc1 & Hk1 & Hf1 & Hs1 & He1) (Hc2 & Hk2 & Hf2 & Hs2 & He2).
  unfold recordingStep. rewrite Hc2, Hk2, Hf2. repeat split; try assumption.
  - intros key. destruct (Hs2 key) as [Heq | Hown]; [| right; exact Hown].
    rewrite Heq. apply Hs1.
  - intros key kind.
    destruct (He2 key kind) as [Heq2 | [Hown Hle2]];
      destruct (He1 key kind) as [Heq1 | [Hown1 Hle1]].
    + left. congruence.
    + right. split; [exact Hown1 | lia].
    + right. split; [exact Hown | lia].
    + right. split; [exact Hown | lia].
Qed.

Lemma stepsWithin_ret {A : Type} this (a : A) : stepsWithin this (ret a).
Proof. intros w. apply recordingStep_refl. Qed.

Lemma stepsWithin_throw {A : Type} this (e : Exception) : stepsWithin this (@throw A e).
Proof. intros w. apply recordingStep_refl. Qed.

Lemma stepsWithin_liftCompletion {A : Type} this (c : Completion A) :
  stepsWithin this (liftCompletion c).
Proof. intros w. apply recordingStep_refl. Qed.

Lemma stepsWithin_readRaw this key : stepsWithin this (readRaw key).
Proof. intros w. apply recordingStep_refl. Qed.

Lemma stepsWithin_log this tag message level : stepsWithin this (log tag message level).
Proof. intros w. apply recordingStep_same; reflexivity. Qed.

(** The value and the world of a guarded getter, in general. *)
Lemma guardedGet_value {A : Type} (field : Context -> option A) (property : string)
    (w : World) :
  guardedGet field property w =
  (Normal (field (currentInstance w)),
   if isUndefined (field (currentInstance w))
   then appendLog (misuseEntry property) (setInstance (currentInstance w) w)
   else setInstance (currentInstance w) w).
Proof.
  unfold guardedGet, bind. rewrite instance_value.
  destruct (field (currentInstance w)) eqn:Hf; simpl; unfold ret; rewrite Hf; reflexivity.
Qed.

Lemma stepsWithin_guardedGet {A : Type} this (field : Context -> option A) property :
  stepsWithin this (guardedGet field property).
Proof.
  intros w. rewrite guardedGet_value. simpl.
  destruct (isUndefined _); apply recordingStep_same; reflexivity.
Qed.

Lemma stepsWithin_bind {A B : Type} this (c : Eff A) (k : A -> Eff B) (Q : A -> Prop) :
  stepsWithin this c ->
  (forall w a, fst (c w) = Normal a -> Q a) ->
  (forall a, Q a -> stepsWithin this (k a)) ->
  stepsWithin this (bind c k).
Proof.
  intros Hc Hpost Hk w. unfold bind.
  specialize (Hc w). specialize (Hpost w).
  destruct (c w) as [[a | e] w1]; simpl in *; [| exact Hc].
  apply (recordingStep_trans this w w1); [exact Hc |].
  apply Hk, Hpost. reflexivity.
Qed.

Lemma stepsWithin_tryCatch {A : Type} this (body : Eff A) (handler : Exception -> Eff A) :
  stepsWithin this body -> (forall e, stepsWithin this (handler e)) ->
  stepsWithin this (tryCatch body handler).
Proof.
  intros Hb Hh w. unfold tryCatch. specialize (Hb w).
  destruct (body w) as [[a | e] w1]; simpl in *; [exact Hb |].
  apply (recordingStep_trans this w w1); [exact Hb | apply Hh].
Qed.

(** Writing a positive integer under an own key. *)
Lemma stepsWithin_writeRaw this (ping : string) (z : Z) :
  ping ∈ sendInPings this -> 0 < z ->
  stepsWithin this (writeRaw (ping, identifier this) (JSNum (NInt z))).
Proof.
  intros Hping Hz w. unfold writeRaw, recordingStep. simpl.
  repeat split; try (intros; left; reflexivity).
  intros key. destruct (decide (key = (ping, identifier this))) as [-> | Hne].
  - right. split; [split; [exact Hping | reflexivity] |].
    exists z. split; [exact Hz | apply lookup_insert_eq].
  - left. apply lookup_insert_ne. congruence.
Qed.

Lemma foldl_recordOnce_le (id : string * string) (kind : option ErrorType)
    (pings : list string) key :
  forall em : ErrorManager,
    (numRecorded em key <=
     numRecorded (foldl (fun em ping => recordOnce (ping, id, kind) em) em pings) key)%nat.
Proof.
  induction pings as [| p rest IH]; intros em; simpl; [lia |].
  etransitivity; [| apply IH].
  destruct (decide (key = (p, id, kind))) as [-> | Hne].
  - rewrite numRecorded_recordOnce_same. lia.
  - rewrite (numRecorded_recordOnce_other em _ _ Hne). lia.
Qed.

Lemma stepsWithin_ErrorManager_record this kind :
  stepsWithin this (ErrorManager_record this kind).
Proof.
  intros w. unfold ErrorManager_record, recordingStep. simpl.
  repeat split; try (intros; left; reflexivity).
  intros [ping id] kind'.
  destruct (decide (ping ∈ sendInPings this /\ id = identifier this)) as [Hown | Hnot].
  - right. split; [exact Hown | apply foldl_recordOnce_le].
  - left. apply foldl_recordOnce_other.
    intros q Hq Heq. inversion Heq; subst. apply Hnot. split; [exact Hq | reflexivity].
Qed.

(** Every wrapper the closure returns holds a positive integer. *)
Lemma transformFn_result_positive this (n : JSNumber) (v : JSValue) (w : World)
    (metric : CounterMetric) :
  fst (transformFn this n v w) = Normal metric -> 0 < _inner metric.
Proof.
  unfold transformFn, bind, liftCompletion, newCounterMetric, validateOrThrow.
  destruct (validate (JSNum n)) eqn:Hn; [| discriminate].
  destruct (validate_Success_inv _ Hn) as (a & Ha & Hpos). inversion Ha; subst n.
  simpl. destruct (truthy v); [| intros [= <-]; exact Hpos].
  unfold tryCatch, CounterMetric_saturatingAdd, validateOrThrow.
  destruct (validate v) eqn:Hv.
  - destruct (validate_Success_inv _ Hv) as (z & -> & Hz). simpl.
    intros [= <-]. simpl. unfold saturatingAdd.
    assert (0 < MAX_SAFE_INTEGER) by reflexivity. lia.
  - simpl. intros [= <-]. exact Hpos.
Qed.

Lemma stepsWithin_transformFn this (n : JSNumber) (v : JSValue) :
  stepsWithin this (transformFn this n v).
Proof.
  unfold transformFn.
  apply (stepsWithin_bind this _ _ (fun _ => True));
    [apply stepsWithin_liftCompletion | trivial |].
  intros metric _. destruct (truthy v); [| apply stepsWithin_ret].
  apply stepsWithin_tryCatch; [apply stepsWithin_liftCompletion |].
  intros e. apply (stepsWithin_bind this _ _ (fun _ => True));
    [apply stepsWithin_log | trivial | intros; apply stepsWithin_ret].
Qed.

Lemma stepsWithin_transformPings this (n : JSNumber) (pings : list string) :
  (forall p, p ∈ pings -> p ∈ sendInPings this) ->
  stepsWithin this (transformPings (identifier this) (transformFn this n) pings).
Proof.
  induction pings as [| ping rest IH]; intros Hsub; simpl; [apply stepsWithin_ret |].
  apply (stepsWithin_bind this _ _ (fun _ => True));
    [apply stepsWithin_readRaw | trivial |].
  intros v _.
  apply (stepsWithin_bind this _ _ (fun metric => 0 < _inner metric));
    [apply stepsWithin_transformFn | intros w; apply transformFn_result_positive |].
  intros metric Hpos.
  apply (stepsWithin_bind this _ _ (fun _ => True)); [| trivial |].
  - apply stepsWithin_writeRaw; [apply Hsub; left | exact Hpos].
  - intros _ _. apply IH. intros p Hp. apply Hsub. right. exact Hp.
Qed.

Lemma stepsWithin_MetricsDatabase_transform this (n : JSNumber) :
  stepsWithin this (MetricsDatabase_transform this (transformFn this n)).
Proof.
  intros w. unfold MetricsDatabase_transform.
  destruct (fault (database w)); [apply recordingStep_refl |].
  apply stepsWithin_transformPings. auto.
Qed.

Lemma stepsWithin_recordError this (e : Exception) : stepsWithin this (recordError e this).
Proof.
  destruct e; simpl; try apply stepsWithin_ret.
  apply (stepsWithin_bind this _ _ (fun _ => True));
    [apply stepsWithin_guardedGet | trivial |].
  intros [em |] _; [apply stepsWithin_ErrorManager_record | apply stepsWithin_throw].
Qed.

(** The recording task changes nothing but what a recording may change,
    whatever the amount and whatever state the world is in. *)
Lemma stepsWithin_addUndispatched this (amount : option JSNumber) :
  stepsWithin this (addUndispatched this amount).
Proof.
  unfold addUndispatched.
  apply (stepsWithin_bind this _ _ (fun _ => True));
    [apply stepsWithin_guardedGet | trivial |].
  intros enabled _. destruct (negb (shouldRecord enabled)); [apply stepsWithin_ret |].
  apply stepsWithin_tryCatch.
  - apply (stepsWithin_bind this _ _ (fun _ => True));
      [apply stepsWithin_guardedGet | trivial |].
    intros [db |] _; [apply stepsWithin_MetricsDatabase_transform | apply stepsWithin_throw].
  - intros e. destruct (instanceofMetricValidationError e);
      [apply stepsWithin_recordError | apply stepsWithin_ret].
Qed.

(** X5.  A recording call of one metric, with any amount and in any state
    of the world, does not touch what belongs to others: a store entry or
    an error count under a key that is not the metric's identifier in one
    of its destination pings is as before, and so is every field of the
    Context. *)
Theorem recording_touches_own_keys_only (this : InternalCounterMetricType)
    (amount : option JSNumber) (w : World) (key : string * (string * string)) :
  ~ ownKey this key ->
  entries (database (after (addUndispatched this amount) w)) !! key =
  entries (database w) !! key /\
  (forall kind,
      numRecorded (errors (after (addUndispatched this amount) w)) (key, kind) =
      numRecorded (errors w) (key, kind)) /\
  currentInstance (after (addUndispatched this amount) w) = currentInstance w.
Proof.
  intros Hnot.
  destruct (stepsWithin_addUndispatched this amount w) as (Hc & _ & _ & Hs & He).
  split; [| split].
  - destruct (Hs key) as [Heq | [Hown _]]; [exact Heq | contradiction].
  - intros kind. destruct (He key kind) as [Heq | [Hown _]]; [exact Heq | contradiction].
  - exact Hc.
Qed.

Lemma recording_touches_own_keys_only_witness :
  entries (database (after (addUndispatched clicks (Some (NInt 5)))
                       (worldHolding (JSStr "seven"))))
    !! ("metrics", ("ui", "scrolls")) =
  entries (database (worldHolding (JSStr "seven"))) !! ("metrics", ("ui", "scrolls")) /\
  (forall kind,
      numRecorded (errors (after (addUndispatched clicks (Some (NInt 5)))
                             (worldHolding (JSStr "seven"))))
                  (("metrics", ("ui", "scrolls")), kind) =
      numRecorded (errors (worldHolding (JSStr "seven")))
                  (("metrics", ("ui", "scrolls")), kind)) /\
  currentInstance (after (addUndispatched clicks (Some (NInt 5)))
                     (worldHolding (JSStr "seven"))) =
  currentInstance (worldHolding (JSStr "seven")).
Proof.
  apply (recording_touches_own_keys_only clicks (Some (NInt 5))
           (worldHolding (JSStr "seven")) ("metrics", ("ui", "scrolls"))).
  intros [_ Hid]. discriminate Hid.
Defined.

(** X6.  Whatever a recording call writes to the store is a valid counter
    value: if an entry differs after the call from what it was before, it
    is an entry of the metric and holds a positive integer, which
    [validate] accepts.  This holds for any amount and any state of the
    world, corrupt stored values included. *)
Theorem recording_writes_valid_counts (this : InternalCounterMetricType)
    (amount : option JSNumber) (w : World) (key : string * (string * string))
    (v : JSValue) :
  entries (database (after (addUndispatched this amount) w)) !! key = Some v ->
  entries (database w) !! key <> Some v ->
  ownKey this key /\ validate v = Success /\ exists z, v = JSNum (NInt z) /\ 0 < z.
Proof.
  intros Hafter Hbefore. unfold after in Hafter.
  destruct (stepsWithin_addUndispatched this amount w) as (_ & _ & _ & Hs & _).
  destruct (Hs key) as [Heq | (Hown & z & Hz & Hval)].
  - rewrite Heq in Hafter. contradiction.
  - rewrite Hval in Hafter. inversion Hafter; subst v.
    split; [exact Hown |]. split; [| eauto].
    rewrite validate_integer. destruct (Z.leb_spec z 0); [lia | reflexivity].
Qed.

Lemma recording_writes_valid_counts_witness :
  ownKey clicks ("metrics", ("ui", "clicks")) /\
  validate (JSNum (NInt 5)) = Success /\
  exists z, JSNum (NInt 5) = JSNum (NInt z) /\ 0 < z.
Proof.
  apply (recording_writes_valid_counts clicks (Some (NInt 5))
           (worldHolding (JSStr "seven")) ("metrics", ("ui", "clicks")) (JSNum (NInt 5))).
  - reflexivity.
  - discriminate.
Defined.

(** ** Exceptions of the recording task *)

(** X7.  When the error recorder of the Context is set, the recording
    task never throws: whatever the amount, whatever the store holds and
    even when the store fails or is not set, [addUndispatched] ends
    normally. *)
Theorem addUndispatched_never_throws (this : InternalCounterMetricType)
    (amount : option JSNumber) (w : World) :
  _errorManager (currentInstance w) = Some theErrorManager ->
  fst (addUndispatched this amount w) = Normal tt.
Proof.
  intros Hem. unfold addUndispatched, bind at 1, uploadEnabled.
  rewrite guardedGet_value. cbn [fst snd].
  set (w1 := if isUndefined (_uploadEnabled (currentInstance w))
             then appendLog (misuseEntry "uploadEnabled") (setInstance (currentInstance w) w)
             else setInstance (currentInstance w) w).
  assert (Hw1 : currentInstance w1 = currentInstance w)
    by (unfold w1; destruct (isUndefined _); reflexivity).
  destruct (negb (shouldRecord (_uploadEnabled (currentInstance w)))); [reflexivity |].
  unfold tryCatch.
  match goal with
  | |- context [ bind metricsDatabase ?k w1 ] => set (body := bind metricsDatabase k)
  end.
  assert (Hbody : stepsWithin this body).
  { apply (stepsWithin_bind this _ _ (fun _ => True));
      [apply stepsWithin_guardedGet | trivial |].
    intros [db |] _; [apply stepsWithin_MetricsDatabase_transform | apply stepsWithin_throw]. }
  specialize (Hbody w1). destruct Hbody as (Hc & _).
  destruct (body w1) as [[[] | e] w2]; [reflexivity |]. simpl in Hc.
  destruct (instanceofMetricValidationError e) eqn:He; [| reflexivity].
  destruct e as [msg ty | |]; try discriminate.
  unfold recordError, bind, errorManager. rewrite guardedGet_value. cbn [fst snd].
  rewrite Hc, Hw1, Hem. reflexivity.
Qed.

Lemma addUndispatched_never_throws_witness :
  fst (addUndispatched clicks (Some (NFrac (3 # 2))) failingWorld) = Normal tt.
Proof.
  apply (addUndispatched_never_throws clicks (Some (NFrac (3 # 2))) failingWorld).
  reflexivity.
Defined.

(** X8.  Recording before the library is initialised is a logged no-op.
    With the enablement flag never set, the task logs the one misuse entry
    of the [uploadEnabled] getter and returns; with the flag on but the
    store never set, it logs the misuse entry of the [metricsDatabase]
    getter, and the [TypeError] of calling [transform] on [undefined] ends
    in the [catch].  Either way nothing is written, no error is recorded
    and nothing is thrown. *)
Theorem recording_before_initialisation (this : InternalCounterMetricType)
    (amount : option JSNumber) (w : World) :
  (_uploadEnabled (currentInstance w) = None ->
   addUndispatched this amount w =
   (Normal tt,
    appendLog (misuseEntry "uploadEnabled") (setInstance (currentInstance w) w))) /\
  (_uploadEnabled (currentInstance w) = Some true ->
   _metricsDatabase (currentInstance w) = None ->
   addUndispatched this amount w =
   (Normal tt,
    appendLog (misuseEntry "metricsDatabase") (setInstance (currentInstance w) w))).
Proof.
  split.
  - intros Hup. unfold addUndispatched, bind at 1, uploadEnabled.
    rewrite guardedGet_value, Hup. reflexivity.
  - intros Hup Hdb. unfold addUndispatched, bind at 1, uploadEnabled.
    rewrite guardedGet_value, Hup. cbn [isUndefined shouldRecord negb].
    unfold tryCatch, bind, metricsDatabase. rewrite guardedGet_value.
    rewrite currentInstance_setInstance, Hdb. reflexivity.
Qed.

Lemma recording_before_initialisation_witness :
  addUndispatched clicks (Some (NInt 1)) freshWorld =
  (Normal tt,
   appendLog (misuseEntry "uploadEnabled") (setInstance (currentInstance freshWorld) freshWorld)) /\
  addUndispatched clicks (Some (NInt 1))
    (setInstance (with_uploadEnabled (Some true) (newContext 2000)) freshWorld) =
  (Normal tt,
   appendLog (misuseEntry "metricsDatabase")
     (setInstance (with_uploadEnabled (Some true) (newContext 2000)) freshWorld)).
Proof.
  split.
  - apply (recording_before_initialisation clicks (Some (NInt 1)) freshWorld). reflexivity.
  - apply (recording_before_initialisation clicks (Some (NInt 1))
             (setInstance (with_uploadEnabled (Some true) (newContext 2000)) freshWorld));
      reflexivity.
Defined.

(** ** The Context as a store of fields *)

(** X9.  Every setter of the Context is read back by its getter: after
    [Context.f = x] the getter of [f] returns [x], logs nothing and leaves
    the world as the setter left it, whatever the Context held before. *)
Theorem Context_set_then_get (w : World) :
  (forall b, uploadEnabled (after (set_uploadEnabled b) w) =
             (Normal (Some b), after (set_uploadEnabled b) w)) /\
  (forall db, metricsDatabase (after (set_metricsDatabase db) w) =
              (Normal (Some db), after (set_metricsDatabase db) w)) /\
  (forall db, eventsDatabase (after (set_eventsDatabase db) w) =
              (Normal (Some db), after (set_eventsDatabase db) w)) /\
  (forall db, pingsDatabase (after (set_pingsDatabase db) w) =
              (Normal (Some db), after (set_pingsDatabase db) w)) /\
  (forall em, errorManager (after (set_errorManager em) w) =
              (Normal (Some em), after (set_errorManager em) w)) /\
  (forall id, applicationId (after (set_applicationId id) w) =
              (Normal (Some id), after (set_applicationId id) w)) /\
  (forall options, debugOptions (after (set_debugOptions options) w) =
                   (Normal (Some options), after (set_debugOptions options) w)) /\
  (forall init, initialized (after (set_initialized init) w) =
                (Normal init, after (set_initialized init) w)).
Proof.
  repeat split; intros x; destruct w as [[c |] db em out now]; reflexivity.
Qed.

(** X10.  The dispatcher getter creates a dispatcher only when there is
    none: it returns the dispatcher holding exactly the tasks that were
    waiting, keeps returning that same dispatcher, never logs, and leaves
    store and error counts alone. *)
Theorem dispatcher_getter_keeps_queue (w : World) :
  fst (dispatcher w) = Normal (Some {| queue := pending w |}) /\
  pending (after dispatcher w) = pending w /\
  dispatcher (after dispatcher w) = (fst (dispatcher w), after dispatcher w) /\
  with_dispatcher (_dispatcher (currentInstance w)) (currentInstance (after dispatcher w)) =
  currentInstance w /\
  console (after dispatcher w) = console w /\
  database (after dispatcher w) = database w /\
  errors (after dispatcher w) = errors w.
Proof.
  destruct w as [[c |] db em out now];
    [destruct c as [[[q] |] up mdb edb pdb emr app dbg ini st] |];
    repeat split; reflexivity.
Qed.

(** ** Reset and the queue *)

(** X11.  [testUninitialize] discards the tasks that were waiting: the
    queue is empty afterwards, and under any later schedule of launches and
    worker turns the tasks executed and still waiting are exactly the ones
    launched after the reset. *)
Theorem testUninitialize_discards_pending (events : list Event) (w : World) :
  pending (after testUninitialize w) = [] /\
  (fst (runEvents events (after testUninitialize w)) ++
   pending (snd (runEvents events (after testUninitialize w))))%list =
  launchedBy events.
Proof.
  assert (Hempty : pending (after testUninitialize w) = []).
  { unfold after. rewrite testUninitialize_value. reflexivity. }
  split; [exact Hempty |].
  destruct (runEvents_invariant events (after testUninitialize w)) as [Hq _].
  rewrite Hq, Hempty. reflexivity.
Qed.

(** X12.  The public [add], followed by one turn of the worker on a queue
    that was empty, does what [addUndispatched] does: the turn runs that
    one task, the queue is empty again, and store, error counts and log are
    those [addUndispatched] leaves when called directly. *)
Theorem add_then_turn_is_addUndispatched (this : InternalCounterMetricType)
    (amount : option JSNumber) (w : World) :
  pending w = [] ->
  fst (processNext (after (add this amount) w)) = Normal (Some (AddTask this amount)) /\
  pending (after processNext (after (add this amount) w)) = [] /\
  database (after processNext (after (add this amount) w)) =
  database (after (addUndispatched this amount) w) /\
  errors (after processNext (after (add this amount) w)) =
  errors (after (addUndispatched this amount) w) /\
  console (after processNext (after (add this amount) w)) =
  console (after (addUndispatched this amount) w).
Proof.
  intros Hempty.
  assert (Hpending : pending (after (add this amount) w) = [AddTask this amount]).
  { unfold add. rewrite launch_pending, Hempty. reflexivity. }
  destruct (processNext_cons _ _ _ Hpending) as (Hfst & Hrest & Herase).
  unfold add in Herase at 2. rewrite launch_eraseQueue in Herase.
  rewrite after_runTask_eraseQueue in Herase.
  change (runTask (AddTask this amount)) with (addUndispatched this amount) in Herase.
  split; [exact Hfst |]. split; [exact Hrest |].
  set (wa := after processNext (after (add this amount) w)) in *.
  set (wb := after (addUndispatched this amount) w) in *.
  change (database wa) with (database (eraseQueue wa)).
  change (errors wa) with (errors (eraseQueue wa)).
  change (console wa) with (console (eraseQueue wa)).
  rewrite Herase. repeat split; reflexivity.
Qed.

Lemma add_then_turn_is_addUndispatched_witness :
  fst (processNext (after (add clicks (Some (NInt 3))) initialisedWorld)) =
  Normal (Some (AddTask clicks (Some (NInt 3)))) /\
  pending (after processNext (after (add clicks (Some (NInt 3))) initialisedWorld)) = [] /\
  database (after processNext (after (add clicks (Some (NInt 3))) initialisedWorld)) =
  database (after (addUndispatched clicks (Some (NInt 3))) initialisedWorld) /\
  errors (after processNext (after (add clicks (Some (NInt 3))) initialisedWorld)) =
  errors (after (addUndispatched clicks (Some (NInt 3))) initialisedWorld) /\
  console (after processNext (after (add clicks (Some (NInt 3))) initialisedWorld)) =
  console (after (addUndispatched clicks (Some (NInt 3))) initialisedWorld).
Proof.
  apply (add_then_turn_is_addUndispatched clicks (Some (NInt 3)) initialisedWorld).
  reflexivity.
Defined.

(** ** Healing *)

Lemma mergedValue_positive (a : Z) (v : JSValue) : 0 < a -> 0 < mergedValue a v.
Proof.
  intros Ha. unfold mergedValue. destruct (truthy v); [| exact Ha].
  destruct (validate v) eqn:Hv; [| exact Ha].
  destruct (validate_Success_inv v Hv) as (z & -> & Hz). simpl. unfold saturatingAdd.
  assert (0 < MAX_SAFE_INTEGER) by reflexivity. lia.
Qed.

(** X13.  One successful recording repairs the store for the metric:
    whatever its destination pings held before, valid, corrupt or nothing,
    each of them holds a positive integer afterwards, which [validate]
    accepts. *)
Theorem recording_heals_store (this : InternalCounterMetricType) (w : World) (a : Z)
    (ping : string) :
  readyToRecord w ->
  fault (database w) = None ->
  NoDup (sendInPings this) ->
  ping ∈ sendInPings this ->
  0 < a ->
  exists r : Z,
    getMetric ping this (after (addUndispatched this (Some (NInt a))) w) =
    Some (JSNum (NInt r)) /\
    0 < r /\ validate (JSNum (NInt r)) = Success.
Proof.
  intros Hready Hfault Hnodup Hping Ha.
  exists (mergedValue a (rawValue (database w) (ping, identifier this))).
  split; [apply (addUndispatched_valid_lookup this w a ping Hready Hfault Hnodup Ha Hping) |].
  pose proof (mergedValue_positive a (rawValue (database w) (ping, identifier this)) Ha)
    as Hpos.
  split; [exact Hpos |]. rewrite validate_integer.
  destruct (Z.leb_spec (mergedValue a (rawValue (database w) (ping, identifier this))) 0);
    [lia | reflexivity].
Qed.

Lemma recording_heals_store_witness :
  exists r : Z,
    getMetric "metrics" clicks
      (after (addUndispatched clicks (Some (NInt 2)))
         (worldHolding (JSArr [JSNull; JSBool true]))) =
    Some (JSNum (NInt r)) /\
    0 < r /\ validate (JSNum (NInt r)) = Success.
Proof.
  apply (recording_heals_store clicks (worldHolding (JSArr [JSNull; JSBool true])) 2
           "metrics").
  - exists initialisedContext. repeat split; reflexivity.
  - reflexivity.
  - apply NoDup_singleton.
  - apply list_elem_of_singleton. reflexivity.
  - reflexivity.
Defined.
